(** * ttcr: rectilinear grid indexing and the 3D raytrace driver

    A shallow embedding of [Grid3Dr.h] (cell indexing, bounds checking,
    slowness assignment) and of [body] in [ttcr3d.cpp] (thread-count
    derivation, partition of the sources into blocks, stitching of
    reflected ray paths, layout of the global ray-path file), followed
    by the properties established about them. *)

From Stdlib Require Import ZArith QArith Qround Bool Ascii String DecimalNat DecimalString List FinFun Lia.
From Stdlib Require Import PrimFloat FloatOps SpecFloat FloatAxioms Uint63.
Import ListNotations.

Local Open Scope Z_scope.

(** ** Machine integers *)

(** [uint32_t], the index type [T2] chosen by [ttcr3d.cpp]
    ([Grid3D<T,uint32_t>]). *)
Module U32.
Definition modulus : Z := 2 ^ 32.
Definition wrap (v : Z) : Z := v mod modulus.
Definition add (a b : Z) : Z := wrap (a + b).
Definition mul (a b : Z) : Z := wrap (a * b).
Definition in_range (v : Z) : Prop := 0 <= v < modulus.
End U32.

(** [size_t] on the 64-bit targets of the program. *)
Module SizeT.
Definition modulus : Z := 2 ^ 64.
Definition wrap (v : Z) : Z := v mod modulus.
Definition add (a b : Z) : Z := wrap (a + b).
Definition sub (a b : Z) : Z := wrap (a - b).
Definition in_range (v : Z) : Prop := 0 <= v < modulus.
End SizeT.

(** ** The real type [T1]

    [Grid3Dr] is a template over the real type [T1]; the operations the
    code applies to it are gathered in an interface. [s_trunc] is the
    integer part that [static_cast<T2>] keeps (rounding toward zero); a
    value that is not a number, or is infinite, has none.

    [body] instantiates [T1] with [double] or [float]. The instance
    below is [double], for which every operation of [getCellNo] is a
    binary64 operation on values of [T1]. With [float], C++ promotes to
    [double] the operands of the literal [.5], and those of [small] if
    that constant is a [double]; no instance is given for it. What is
    stated for every instance of the interface uses no property of the
    operations. *)
Class Scalar (T1 : Type) : Type := {
  s_add : T1 -> T1 -> T1;
  s_sub : T1 -> T1 -> T1;
  s_mul : T1 -> T1 -> T1;
  s_div : T1 -> T1 -> T1;
  s_ltb : T1 -> T1 -> bool;
  s_half : T1;
  s_of_T2 : Z -> T1;
  s_trunc : T1 -> option Z
}.

Definition s_gtb {T1 : Type} `{Scalar T1} (a b : T1) : bool := s_ltb b a.

(** Binary64 floating point ([double]) as an instance of [T1]. *)
Definition float_trunc (f : float) : option Z :=
  match Prim2SF f with
  | S754_zero _ => Some 0
  | S754_finite s m e =>
      let v := if 0 <=? e then Z.pos m * 2 ^ e else Z.quot (Z.pos m) (2 ^ (- e)) in
      Some (if s then - v else v)
  | S754_infinity _ => None
  | S754_nan => None
  end.

#[export] Instance Double_Scalar : Scalar float := {
  s_add := PrimFloat.add;
  s_sub := PrimFloat.sub;
  s_mul := PrimFloat.mul;
  s_div := PrimFloat.div;
  s_ltb := PrimFloat.ltb;
  s_half := 0.5%float;
  s_of_T2 := fun v => PrimFloat.of_uint63 (Uint63.of_Z v);
  s_trunc := float_trunc
}.

(** ** Points *)

(** [sxyz<T>] is declared in [structs_spmrt.h]; the code reads its
    members [x], [y], [z]. *)
Module Sxyz.
Record sxyz (T : Type) : Type := mk { x : T; y : T; z : T }.
Arguments mk {T} _ _ _.
Arguments x {T} _.
Arguments y {T} _.
Arguments z {T} _.
End Sxyz.

(** A node-like argument of the second [getCellNo] overload: anything
    with [getX], [getY], [getZ]. *)
Class NodeLike (T1 NODE : Type) : Type := {
  getX : NODE -> T1;
  getY : NODE -> T1;
  getZ : NODE -> T1
}.

(** A grid node as the solvers store it: coordinates and a travel
    time behind accessors. *)
Record Node3D (T1 : Type) : Type := mk_Node3D {
  node_x : T1; node_y : T1; node_z : T1; node_tt : T1
}.
Arguments mk_Node3D {T1} _ _ _ _.
Arguments node_x {T1} _.
Arguments node_y {T1} _.
Arguments node_z {T1} _.
Arguments node_tt {T1} _.

#[export] Instance Node3D_NodeLike (T1 : Type) : NodeLike T1 (Node3D T1) := {
  getX := node_x;
  getY := node_y;
  getZ := node_z
}.

(** ** Grid3Dr *)
Module Grid3Dr.

Record t (T1 : Type) : Type := mk {
  nThreads : Z;
  dx : T1; dy : T1; dz : T1;
  xmin : T1; ymin : T1; zmin : T1;
  xmax : T1; ymax : T1; zmax : T1;
  ncx : Z; ncy : Z; ncz : Z;
  nsnx : Z; nsny : Z; nsnz : Z
}.
Arguments mk {T1}.
Arguments nThreads {T1} _.
Arguments dx {T1} _.
Arguments dy {T1} _.
Arguments dz {T1} _.
Arguments xmin {T1} _.
Arguments ymin {T1} _.
Arguments zmin {T1} _.
Arguments xmax {T1} _.
Arguments ymax {T1} _.
Arguments zmax {T1} _.
Arguments ncx {T1} _.
Arguments ncy {T1} _.
Arguments ncz {T1} _.
Arguments nsnx {T1} _.
Arguments nsny {T1} _.
Arguments nsnz {T1} _.

(** Messages sent to [std::cerr]. *)
Inductive cerr_msg : Type :=
| PointOutsideGrid (no : nat).

Section Methods.
Context {T1 : Type} {ST : Scalar T1}.

(** The global constant [small], declared outside the two files. *)
Variable small : T1.

(** The constructor: the upper corner is derived from the origin,
    the cell counts and the cell sizes. *)
Definition new (nx ny nz : Z) (ddx ddy ddz : T1) (minx miny minz : T1)
           (nnx nny nnz : Z) (nt : Z) : t T1 :=
  {| nThreads := nt;
     dx := ddx; dy := ddy; dz := ddz;
     xmin := minx; ymin := miny; zmin := minz;
     xmax := s_add minx (s_mul (s_of_T2 nx) ddx);
     ymax := s_add miny (s_mul (s_of_T2 ny) ddy);
     zmax := s_add minz (s_mul (s_of_T2 nz) ddz);
     ncx := nx; ncy := ny; ncz := nz;
     nsnx := nnx; nsny := nny; nsnz := nnz |}.

Definition getNumberOfCells (g : t T1) : Z :=
  U32.mul (U32.mul (ncx g) (ncy g)) (ncz g).

Definition getNumberOfNodes (g : t T1) : Z := 0.

(** [virtual void setSlowness(const T1 s) {}]: the grid is left as
    it is. *)
Definition setSlowness (g : t T1) (s : T1) : t T1 := g.

(** [virtual int setSlowness(const std::vector<T1>&) { return 0; }]:
    the return code and the grid after the call. *)
Definition setSlowness_vec (g : t T1) (s : list T1) : Z * t T1 := (0, g).

(** [static_cast<T2>] of a real: the integer part, when it is a value
    of [T2]. C++ leaves the conversion undefined when the integer part
    cannot be represented in the destination type, and for a value that
    has no integer part: [None]. *)
Definition cast_T2 (v : T1) : option Z :=
  match s_trunc v with
  | Some n => if (0 <=? n) && (n <? U32.modulus) then Some n else None
  | None => None
  end.

(** [getCellNo(const sxyz<T1>&)], lines 89-97; [None] when one of the
    three conversions is undefined. *)
Definition getCellNo (g : t T1) (pt : Sxyz.sxyz T1) : option Z :=
  let x := if s_ltb (s_sub (xmax g) (Sxyz.x pt)) small
           then s_sub (xmax g) (s_mul s_half (dx g)) else Sxyz.x pt in
  let y := if s_ltb (s_sub (ymax g) (Sxyz.y pt)) small
           then s_sub (ymax g) (s_mul s_half (dy g)) else Sxyz.y pt in
  let z := if s_ltb (s_sub (zmax g) (Sxyz.z pt)) small
           then s_sub (zmax g) (s_mul s_half (dz g)) else Sxyz.z pt in
  match cast_T2 (s_add small (s_div (s_sub x (xmin g)) (dx g))) with
  | None => None
  | Some nx =>
      match cast_T2 (s_add small (s_div (s_sub y (ymin g)) (dy g))) with
      | None => None
      | Some ny =>
          match cast_T2 (s_add small (s_div (s_sub z (zmin g)) (dz g))) with
          | None => None
          | Some nz =>
              Some (U32.add (U32.add (U32.mul ny (ncx g))
                                     (U32.mul nz (U32.mul (ncx g) (ncy g)))) nx)
          end
      end
  end.

(** [getCellNo(const NODE&)], lines 100-109. *)
Definition getCellNo_node {NODE : Type} {NL : NodeLike T1 NODE}
           (g : t T1) (node : NODE) : option Z :=
  let x := if s_ltb (s_sub (xmax g) (getX node)) small
           then s_sub (xmax g) (s_mul s_half (dx g)) else getX node in
  let y := if s_ltb (s_sub (ymax g) (getY node)) small
           then s_sub (ymax g) (s_mul s_half (dy g)) else getY node in
  let z := if s_ltb (s_sub (zmax g) (getZ node)) small
           then s_sub (zmax g) (s_mul s_half (dz g)) else getZ node in
  match cast_T2 (s_add small (s_div (s_sub x (xmin g)) (dx g))) with
  | None => None
  | Some nx =>
      match cast_T2 (s_add small (s_div (s_sub y (ymin g)) (dy g))) with
      | None => None
      | Some ny =>
          match cast_T2 (s_add small (s_div (s_sub z (zmin g)) (dz g))) with
          | None => None
          | Some nz =>
              Some (U32.add (U32.add (U32.mul ny (ncx g))
                                     (U32.mul nz (U32.mul (ncx g) (ncy g)))) nx)
          end
      end
  end.

(** The test of the loop of [check_pts] on one point. *)
Definition outside (g : t T1) (p : Sxyz.sxyz T1) : bool :=
  s_ltb (Sxyz.x p) (xmin g) || s_gtb (Sxyz.x p) (xmax g) ||
  s_ltb (Sxyz.y p) (ymin g) || s_gtb (Sxyz.y p) (ymax g) ||
  s_ltb (Sxyz.z p) (zmin g) || s_gtb (Sxyz.z p) (zmax g).

(** The loop of [check_pts] from index [n] on: the return code and
    what was printed. *)
Fixpoint check_pts_from (g : t T1) (n : nat) (pts : list (Sxyz.sxyz T1))
  : Z * list cerr_msg :=
  match pts with
  | [] => (0, [])
  | p :: rest =>
      if outside g p then (1, [PointOutsideGrid (n + 1)])
      else check_pts_from g (S n) rest
  end.

Definition check_pts (g : t T1) (pts : list (Sxyz.sxyz T1)) : Z * list cerr_msg :=
  check_pts_from g 0 pts.

End Methods.
End Grid3Dr.

(** ** The driver [body] of ttcr3d.cpp *)
Module Ttcr3d.

(** *** Thread count and block size *)

Definition min_per_thread : Z := 5.

(** [num_threads] (lines 41-50) from [par.nt], the value returned by
    [std::thread::hardware_concurrency()] and [nTx = src.size()]. *)
Definition num_threads (par_nt hardware_threads nTx : Z) : Z :=
  if par_nt =? 0 then
    let max_threads :=
      SizeT.sub (SizeT.add nTx min_per_thread) 1 / min_per_thread in
    Z.min (if negb (hardware_threads =? 0) then hardware_threads else 2)
          max_threads
  else
    if par_nt <? nTx then par_nt else nTx.

(** [blk_size] (line 52); the remainder and the quotient by zero are
    undefined. *)
Definition blk_size (nTx num_threads : Z) : option Z :=
  if num_threads =? 0 then None
  else Some (SizeT.add (if negb (nTx mod num_threads =? 0) then 1 else 0)
                       (nTx / num_threads)).

(** *** Partition of the sources *)

(** What a thread runs: the loop [for n = blk_start; n < blk_end; ++n]
    with the workspace number passed to [raytrace]. *)
Record job : Type := mk_job {
  blk_start : Z;
  blk_end : Z;
  thread_no : Z
}.

(** The sources [n] a job visits, in order. *)
Definition job_sources (j : job) : list Z :=
  map (fun k => blk_start j + Z.of_nat k)
      (seq 0 (Z.to_nat (blk_end j - blk_start j))).

(** The loop that starts the workers (lines 155-187 and 241-269), from
    iteration [i] with [count] iterations left; returns the jobs started
    and the final [blk_start]. The worker of iteration [i] captures
    [blk_start], [blk_end] and passes [i+1] to [raytrace]. *)
Fixpoint spawn (count : nat) (i : Z) (start size : Z) : list job * Z :=
  match count with
  | O => ([], start)
  | S count' =>
      let stop := SizeT.add start size in
      let (js, final) := spawn count' (i + 1) stop size in
      (mk_job start stop (i + 1) :: js, final)
  end.

Record schedule : Type := mk_schedule {
  workers : list job;
  main_job : job
}.

(** The jobs of a run: with one thread the main thread visits every
    source (lines 129-150 and 213-236); otherwise [num_threads - 1]
    workers are started and the main thread runs from the last
    [blk_start] to [nTx] (lines 151-211 and 237-290). *)
Definition dispatch (nTx nthreads size : Z) : schedule :=
  if nthreads =? 1 then
    mk_schedule [] (mk_job 0 nTx 0)
  else
    let (js, start) := spawn (Z.to_nat (SizeT.sub nthreads 1)) 0 0 size in
    mk_schedule js (mk_job start nTx 0).

(** From the settings to the schedule (lines 41-52 and 128-291). *)
Definition plan (par_nt hardware_threads nTx : Z) : option schedule :=
  let nthreads := num_threads par_nt hardware_threads nTx in
  match blk_size nTx nthreads with
  | None => None
  | Some size => Some (dispatch nTx nthreads size)
  end.

(** Every source index visited, workers first, then the main thread. *)
Definition visited (s : schedule) : list Z :=
  flat_map job_sources (workers s) ++ job_sources (main_job s).

(** [src[n]] is a valid access. *)
Definition in_src (nTx n : Z) : bool := (0 <=? n) && (n <? nTx).

(** *** Ray paths *)

Notation "x <- e ;; k" :=
  (match e with Some x => k | None => None end)
    (at level 61, e at next level, right associativity).

(** What [body] hands to the file system. *)
Inductive item (T : Type) : Type :=
| Size (n : Z)              (* the bytes of a [size_t] *)
| Point (p : Sxyz.sxyz T)   (* the bytes of one [sxyz<T>] *)
| Text (n : Z).             (* a number printed by [operator<<] *)
Arguments Size {T} _.
Arguments Point {T} _.
Arguments Text {T} _.

Inductive output (T : Type) : Type :=
| SaveRayPaths (filename : string) (r : list (list (Sxyz.sxyz T)))
| BinaryFile (filename : string) (content : list (item T)).
Arguments SaveRayPaths {T} _ _.
Arguments BinaryFile {T} _ _.

(** How the tail of [body] ends. *)
Inductive outcome (T : Type) : Type :=
| Exit (code : Z) (files : list (output T))
| Completed (files : list (output T)).
Arguments Exit {T} _ _.
Arguments Completed {T} _.

Section RayPaths.
Context {T : Type}.

(** [operator==] of [sxyz<T>], declared in [structs_spmrt.h]. *)
Variable sxyz_eqb : Sxyz.sxyz T -> Sxyz.sxyz T -> bool.

Definition path : Type := list (Sxyz.sxyz T).

(** [v.back()]: undefined on an empty vector. *)
Definition back (p : path) : option (Sxyz.sxyz T) :=
  nth_error p (Nat.pred (length p)).

(** The loop [for i = from; i < v.size(); ++i) r_tmp[irx].push_back(v[i])]. *)
Fixpoint push_back_from (r_tmp : list path) (irx : nat) (v : path) (from : nat)
  : option (list path) :=
  match r_tmp, irx with
  | [], _ => None
  | r :: rest, O => Some ((r ++ skipn from v) :: rest)
  | r :: rest, S irx' =>
      rest' <- push_back_from rest irx' v from ;;
      Some (r :: rest')
  end.

(** The loop over [n] for the receiver [irx] (lines 330-341 and
    387-398): the first path of [rfl] that ends at [pt1] is copied, then
    the path [rx] of the receiver without its first point, and the loop
    is left. *)
Fixpoint scan (pt1 : Sxyz.sxyz T) (rx : path) (rfl : list path)
         (irx : nat) (r_tmp : list path) : option (list path) :=
  match rfl with
  | [] => Some r_tmp
  | p :: rfl' =>
      b <- back p ;;
      if sxyz_eqb pt1 b then
        r1 <- push_back_from r_tmp irx p 0 ;;
        push_back_from r1 irx rx 1
      else scan pt1 rx rfl' irx r_tmp
  end.

(** One iteration of the loop over the receivers (lines 327-342 and
    384-399), for the reflector [nr] and the source [ns]. *)
Definition stitch_rx (rfl_r_data rfl2_r_data : list (list (list path)))
           (nr ns irx : nat) (r_tmp : list path) : option (list path) :=
  d2 <- nth_error rfl2_r_data nr ;;
  d2s <- nth_error d2 ns ;;
  rx <- nth_error d2s irx ;;
  pt1 <- nth_error rx 0 ;;
  d1 <- nth_error rfl_r_data nr ;;
  rfl <- nth_error d1 ns ;;
  scan pt1 rx rfl irx r_tmp.

Fixpoint stitch_loop (rfl_r_data rfl2_r_data : list (list (list path)))
         (nr ns : nat) (count irx : nat) (r_tmp : list path)
  : option (list path) :=
  match count with
  | O => Some r_tmp
  | S count' =>
      r1 <- stitch_rx rfl_r_data rfl2_r_data nr ns irx r_tmp ;;
      stitch_loop rfl_r_data rfl2_r_data nr ns count' (S irx) r1
  end.

(** [r_tmp] after the loop over the [nrcv] receivers; [None] when an
    access is out of range. *)
Definition stitch (nrcv : nat) (rfl_r_data rfl2_r_data : list (list (list path)))
           (nr ns : nat) : option (list path) :=
  stitch_loop rfl_r_data rfl2_r_data nr ns nrcv 0 (repeat [] nrcv).

(** [to_string(nr+1)]. *)
Definition to_string (n : nat) : string :=
  NilEmpty.string_of_uint (Nat.to_uint n).

(** The loop over the reflectors that stitches and saves the
    reflected paths of the source [ns] (lines 324-347 and 381-404);
    [prefix] is the part of the file name before [_rp]. *)
Fixpoint save_reflected (prefix : string) (nrcv : nat)
         (rfl_r_data rfl2_r_data : list (list (list path)))
         (ns : nat) (count nr : nat) : option (list (output T)) :=
  match count with
  | O => Some []
  | S count' =>
      r_tmp <- stitch nrcv rfl_r_data rfl2_r_data nr ns ;;
      rest <- save_reflected prefix nrcv rfl_r_data rfl2_r_data ns count' (S nr) ;;
      Some (SaveRayPaths (prefix ++ "_rp" ++ to_string (nr + 1) ++ ".vtp")%string r_tmp
              :: rest)
  end.

(** *** The global ray-path file *)

Definition write_size (n : nat) (fout : list (item T)) : list (item T) :=
  fout ++ [Size (Z.of_nat n)].

Definition write_points (p : path) (fout : list (item T)) : list (item T) :=
  fout ++ map Point p.

(** The innermost loop: the rays of one source. *)
Definition write_rays (rays : list path) (fout : list (item T)) : list (item T) :=
  fold_left (fun f p => write_points p (write_size (length p) f)) rays fout.

(** The loop over the sources. *)
Definition write_sources (d : list (list path)) (fout : list (item T))
  : list (item T) :=
  fold_left (fun f rays => write_rays rays (write_size (length rays) f)) d fout.

(** The loop over the reflectors. *)
Definition write_reflectors (d : list (list (list path))) (fout : list (item T))
  : list (item T) :=
  fold_left (fun f s => write_sources s (write_size (length s) f)) d fout.

Definition write_global (r_data : list (list path))
           (rfl_r_data rfl2_r_data : list (list (list path))) : list (item T) :=
  let fout := write_sources r_data (write_size (length r_data) []) in
  let fout := write_reflectors rfl_r_data (write_size (length rfl_r_data) fout) in
  write_reflectors rfl2_r_data (write_size (length rfl2_r_data) fout).

(** The files named [basename_rp.bin] that [body] writes (lines 349-357
    for a single source, 409-468 otherwise), from the settings, the
    numbers of sources and reflectors, and whether the file can be
    opened. *)
Definition save_rp_bin (saveRaypaths : bool) (basename : string)
           (src_size reflectors_size : nat) (can_open : bool)
           (r_data : list (list path))
           (rfl_r_data rfl2_r_data : list (list (list path))) : outcome T :=
  if Nat.eqb src_size 1 then
    if saveRaypaths && (0 <? reflectors_size)%nat then
      if can_open then
        Completed [BinaryFile (basename ++ "_rp.bin")%string
                              [Text (Z.of_nat (length r_data))]]
      else Completed []
    else Completed []
  else
    if saveRaypaths && (0 <? reflectors_size)%nat then
      if can_open then
        Completed [BinaryFile (basename ++ "_rp.bin")%string
                     (write_global r_data rfl_r_data rfl2_r_data)]
      else Exit 1 []
    else Completed [].

End RayPaths.
Arguments path : clear implicits.

End Ttcr3d.

(** ** [std::string]

    The operations of [std::string] that [body] uses, with [size_t]
    positions; [None] stands for the exception [std::out_of_range]. *)
Module StdString.

Definition npos : Z := SizeT.modulus - 1.

Definition size (s : string) : Z := Z.of_nat (String.length s).

(** The index of the last [c] in [s], counted from [i]. *)
Fixpoint rfind_from (c : ascii) (s : string) (i : Z) : option Z :=
  match s with
  | EmptyString => None
  | String a s' =>
      match rfind_from c s' (i + 1) with
      | Some k => Some k
      | None => if Ascii.eqb a c then Some i else None
      end
  end.

(** [s.rfind(c)]: the index of the last [c], or [npos]. *)
Definition rfind (s : string) (c : ascii) : Z :=
  match rfind_from c s 0 with
  | Some k => k
  | None => npos
  end.

Fixpoint take (n : nat) (s : string) : string :=
  match n, s with
  | S n', String a s' => String a (take n' s')
  | _, _ => EmptyString
  end.

Fixpoint drop (n : nat) (s : string) : string :=
  match n, s with
  | S n', String _ s' => drop n' s'
  | _, _ => s
  end.

(** [s.substr(pos)]: throws when [pos > size()]. *)
Definition substr (s : string) (pos : Z) : option string :=
  if size s <? pos then None else Some (drop (Z.to_nat pos) s).

(** [s.erase(pos, len)]: throws when [pos > size()], removes
    [min(len, size() - pos)] characters otherwise. *)
Definition erase (s : string) (pos len : Z) : option string :=
  if size s <? pos then None
  else
    let n := Z.min len (size s - pos) in
    Some (take (Z.to_nat pos) s ++ drop (Z.to_nat (pos + n)) s)%string.

(** Whether [c] occurs in [s]. *)
Fixpoint contains (c : ascii) (s : string) : bool :=
  match s with
  | EmptyString => false
  | String a s' => Ascii.eqb a c || contains c s'
  end.

End StdString.

(** ** File names in [body] *)
Module Body.

(** [extension] (lines 54-60): the part of [par.modelfile] from its last
    dot on, or the empty string. *)
Definition extension (modelfile : string) : option string :=
  let idx := StdString.rfind modelfile "."%char in
  if negb (idx =? StdString.npos) then StdString.substr modelfile idx
  else Some EmptyString.

(** The functions that build the grid, declared outside the two files. *)
Inductive builder : Type :=
| recti
| unstruct_vtu
| unstruct.

(** What lines 62-83 do with the extension: a builder is called, or a
    message goes to [std::cerr] and [body] returns 1. *)
Inductive selection : Type :=
| Build (b : builder)
| NoVTK
| UnknownExtension (modelfile extension : string).

(** [vtk] tells whether the program was compiled with [VTK] defined. *)
Definition select_builder (vtk : bool) (modelfile extension : string) : selection :=
  if (extension =? ".vtr")%string then
    if vtk then Build recti else NoVTK
  else if (extension =? ".vtu")%string then
    if vtk then Build unstruct_vtu else NoVTK
  else if (extension =? ".msh")%string then
    Build unstruct
  else UnknownExtension modelfile extension.

Definition select_grid (vtk : bool) (modelfile : string) : option selection :=
  match extension modelfile with
  | Some e => Some (select_builder vtk modelfile e)
  | None => None
  end.

(** [srcname] (lines 362-367): the source file name without its
    directories and without its last extension. *)
Definition srcname (srcfile : string) : option string :=
  let pos := StdString.rfind srcfile "/"%char in
  match StdString.erase srcfile 0 (SizeT.add pos 1) with
  | None => None
  | Some s1 =>
      let pos := StdString.rfind s1 "."%char in
      let len := SizeT.sub (StdString.size s1) pos in
      StdString.erase s1 pos len
  end.

(** The name of the travel-time file of a source, when there are
    several sources (line 369). *)
Definition tt_filename (basename srcfile : string) : option string :=
  match srcname srcfile with
  | Some n => Some (basename ++ "_" ++ n ++ "_tt.dat")%string
  | None => None
  end.

(** *** The saving stage (lines 311-469) *)

(** What the saving stage hands to the file system: a call of
    [rcv.save_tt(filename, ns)], or one of the ray-path outputs. *)
Inductive file (T : Type) : Type :=
| TravelTimes (filename : string) (ns : nat)
| Paths (o : Ttcr3d.output T).
Arguments TravelTimes {T} _ _.
Arguments Paths {T} _.

(** How the stage ends: it runs to its end, [erase] throws
    [std::out_of_range], or [exit(1)] is called. *)
Inductive ending : Type :=
| Normal
| OutOfRange
| Exit1.

Record saved (T : Type) : Type := mk_saved {
  files : list (file T);
  how : ending
}.
Arguments mk_saved {T} _ _.
Arguments files {T} _.
Arguments how {T} _.

Section Saving.
Context {T : Type}.
Variable sxyz_eqb : Sxyz.sxyz T -> Sxyz.sxyz T -> bool.
Variables (saveRaypaths : bool) (basename : string) (nrcv nrefl : nat).
Variable r_data : list (list (Ttcr3d.path T)).
Variables rfl_r_data rfl2_r_data : list (list (list (Ttcr3d.path T))).

(** The files of one source once its name is known; [prefix] is what
    comes before [_tt.dat] and [_rp]. [None] is an out-of-range access. *)
Definition save_source (prefix : string) (ns : nat) : option (list (file T)) :=
  let tt := TravelTimes (prefix ++ "_tt.dat")%string ns in
  if saveRaypaths then
    match nth_error r_data ns with
    | None => None
    | Some r =>
        match Ttcr3d.save_reflected sxyz_eqb prefix nrcv rfl_r_data rfl2_r_data
                                    ns nrefl 0 with
        | None => None
        | Some refl =>
            Some (tt :: Paths (Ttcr3d.SaveRayPaths (prefix ++ "_rp.vtp")%string r)
                     :: map Paths refl)
        end
    end
  else Some [tt].

(** The loop over the sources of lines 360-407, from the source [ns]. *)
Fixpoint save_sources (srcfiles : list string) (ns : nat) : option (saved T) :=
  match srcfiles with
  | [] => Some (mk_saved [] Normal)
  | f :: rest =>
      match srcname f with
      | None => Some (mk_saved [] OutOfRange)
      | Some n =>
          match save_source (basename ++ "_" ++ n)%string ns with
          | None => None
          | Some here =>
              match save_sources rest (S ns) with
              | None => None
              | Some s => Some (mk_saved (here ++ files s) (how s))
              end
          end
      end
  end.

(** The whole stage: one source (lines 311-358), or the loop over the
    sources followed by the global ray-path file (lines 359-469). [src]
    holds one source per entry of [par.srcfiles] (lines 31-38), so
    [src.size()] is the length of [srcfiles]. *)
Definition save_all (srcfiles : list string) (can_open : bool) : option (saved T) :=
  let bin :=
    match Ttcr3d.save_rp_bin saveRaypaths basename (length srcfiles) nrefl can_open
                             r_data rfl_r_data rfl2_r_data with
    | Ttcr3d.Completed l => mk_saved (map Paths l) Normal
    | Ttcr3d.Exit _ l => mk_saved (map Paths l) Exit1
    end in
  if Nat.eqb (length srcfiles) 1 then
    match save_source basename 0 with
    | None => None
    | Some here => Some (mk_saved (here ++ files bin) (how bin))
    end
  else
    match save_sources srcfiles 0 with
    | None => None
    | Some s =>
        match how s with
        | Normal => Some (mk_saved (files s ++ files bin) (how bin))
        | _ => Some s
        end
    end.

End Saving.

End Body.

(** ** The specification's wording

    Definitions that follow the text of the specification, against
    which the code above is compared. *)
Module Spec.

Section CellIndex.
Context {T1 : Type} {ST : Scalar T1}.
Variable small : T1.

(** *** The cell index as the specification words it

    A coordinate is within [small] of the axis maximum when it is less
    than [small] away from it, on either side. *)
Definition within_small (maxv c : T1) : bool :=
  s_ltb (s_sub maxv c) small && s_ltb (s_sub c maxv) small.

(** Such a coordinate is moved to [max - 0.5 * cellSize]; any other is
    used as it is. *)
Definition claimed_snap (maxv cellSize c : T1) : T1 :=
  if within_small maxv c then s_sub maxv (s_mul s_half cellSize) else c.

(** The cell number along one axis: the integer truncation of
    [small + (coord - min) / cellSize]. *)
Definition claimed_axis_cell (minv maxv cellSize c : T1) : option Z :=
  s_trunc (s_add small
             (s_div (s_sub (claimed_snap maxv cellSize c) minv) cellSize)).

(** The integer [ny*ncx + nz*(ncx*ncy) + nx]. *)
Definition claimed_cellIndex (g : Grid3Dr.t T1) (x y z : T1) : option Z :=
  match claimed_axis_cell (Grid3Dr.xmin g) (Grid3Dr.xmax g) (Grid3Dr.dx g) x,
        claimed_axis_cell (Grid3Dr.ymin g) (Grid3Dr.ymax g) (Grid3Dr.dy g) y,
        claimed_axis_cell (Grid3Dr.zmin g) (Grid3Dr.zmax g) (Grid3Dr.dz g) z with
  | Some nx, Some ny, Some nz =>
      Some (ny * Grid3Dr.ncx g + nz * (Grid3Dr.ncx g * Grid3Dr.ncy g) + nx)
  | _, _, _ => None
  end.

(** *** The cell index with the wording amended

    A coordinate greater than [max - small], within [small] of the
    maximum or anywhere beyond it, is moved to [max - 0.5 * cellSize]. *)
Definition snap (maxv cellSize c : T1) : T1 :=
  if s_ltb (s_sub maxv c) small then s_sub maxv (s_mul s_half cellSize) else c.

(** The cell number along one axis: the integer truncation of
    [small + (coord - min) / cellSize], provided it is a value of [T2],
    from 0 to [2^32 - 1]. *)
Definition axis_cell (minv maxv cellSize c : T1) : option Z :=
  match s_trunc (s_add small
                   (s_div (s_sub (snap maxv cellSize c) minv) cellSize)) with
  | Some n => if (0 <=? n) && (n <? 2 ^ 32) then Some n else None
  | None => None
  end.

Definition cell_x (g : Grid3Dr.t T1) (c : T1) : option Z :=
  axis_cell (Grid3Dr.xmin g) (Grid3Dr.xmax g) (Grid3Dr.dx g) c.
Definition cell_y (g : Grid3Dr.t T1) (c : T1) : option Z :=
  axis_cell (Grid3Dr.ymin g) (Grid3Dr.ymax g) (Grid3Dr.dy g) c.
Definition cell_z (g : Grid3Dr.t T1) (c : T1) : option Z :=
  axis_cell (Grid3Dr.zmin g) (Grid3Dr.zmax g) (Grid3Dr.dz g) c.

(** The integer [ny*ncx + nz*(ncx*ncy) + nx] reduced modulo [2^32], when
    the three cell numbers are values of [T2]. *)
Definition cellIndex (g : Grid3Dr.t T1) (x y z : T1) : option Z :=
  match cell_x g x, cell_y g y, cell_z g z with
  | Some nx, Some ny, Some nz =>
      Some ((ny * Grid3Dr.ncx g + nz * (Grid3Dr.ncx g * Grid3Dr.ncy g) + nx)
              mod 2 ^ 32)
  | _, _, _ => None
  end.

(** A coordinate strictly outside [[min, max]] on its axis. *)
Definition strictly_outside (g : Grid3Dr.t T1) (p : Sxyz.sxyz T1) : Prop :=
  s_ltb (Sxyz.x p) (Grid3Dr.xmin g) = true \/
  s_ltb (Grid3Dr.xmax g) (Sxyz.x p) = true \/
  s_ltb (Sxyz.y p) (Grid3Dr.ymin g) = true \/
  s_ltb (Grid3Dr.ymax g) (Sxyz.y p) = true \/
  s_ltb (Sxyz.z p) (Grid3Dr.zmin g) = true \/
  s_ltb (Grid3Dr.zmax g) (Sxyz.z p) = true.

End CellIndex.

(** [ceil(n/d)] for a positive [d]. *)
Definition ceil_div (n d : Z) : Z := Qceiling (n # Z.to_pos d).

(** The index range [[lo, hi)], in order. *)
Definition range (lo hi : Z) : list Z :=
  map (fun k => lo + Z.of_nat k) (seq 0 (Z.to_nat (hi - lo))).

Section Format.
Context {T : Type}.

(** A sequence preceded by its element count. *)
Definition counted {A : Type} (enc : A -> list (Ttcr3d.item T)) (l : list A)
  : list (Ttcr3d.item T) :=
  Ttcr3d.Size (Z.of_nat (length l)) :: flat_map enc l.

(** A path: its point count, then its points. *)
Definition enc_path (p : list (Sxyz.sxyz T)) : list (Ttcr3d.item T) :=
  Ttcr3d.Size (Z.of_nat (length p)) :: map Ttcr3d.Point p.

(** Direct paths of all sources, then the source-to-reflector paths
    and the reflector-to-receiver paths of all reflectors and
    sources. *)
Definition rp_bin (r_data : list (list (list (Sxyz.sxyz T))))
           (rfl_r_data rfl2_r_data : list (list (list (list (Sxyz.sxyz T)))))
  : list (Ttcr3d.item T) :=
  counted (counted enc_path) r_data ++
  counted (counted (counted enc_path)) rfl_r_data ++
  counted (counted (counted enc_path)) rfl2_r_data.

(** The stitched path of a receiver whose path is [rx]: the first
    path of [rfl] whose last point equals the first point of [rx],
    followed by [rx] without its first point; empty without a match. *)
Variable sxyz_eqb : Sxyz.sxyz T -> Sxyz.sxyz T -> bool.

Definition ends_at (pt1 : Sxyz.sxyz T) (p : list (Sxyz.sxyz T)) : bool :=
  match Ttcr3d.back p with
  | Some b => sxyz_eqb pt1 b
  | None => false
  end.

Definition stitched (rfl : list (list (Sxyz.sxyz T))) (rx : list (Sxyz.sxyz T))
  : list (Sxyz.sxyz T) :=
  match rx with
  | [] => []
  | pt1 :: rest =>
      match find (ends_at pt1) rfl with
      | Some p => p ++ rest
      | None => []
      end
  end.

(** Every receiver has a non-empty path and every source-to-reflector
    path is non-empty. *)
Definition paths_nonempty (nrcv : nat) (rfl rfl2 : list (list (Sxyz.sxyz T)))
  : Prop :=
  (forall irx, (irx < nrcv)%nat ->
               exists rx, nth_error rfl2 irx = Some rx /\ rx <> []) /\
  (forall p, In p rfl -> p <> []).

End Format.

(** An encoder after which reading can resume: equal streams give equal
    values and equal remainders. *)
Definition resumable {T A : Type} (enc : A -> list (Ttcr3d.item T)) : Prop :=
  forall (x y : A) (r r' : list (Ttcr3d.item T)),
    enc x ++ r = enc y ++ r' -> x = y /\ r = r'.

(** The directories in front of a file name: nothing, or something that
    ends with a slash. *)
Definition is_dir_prefix (dir : string) : Prop :=
  dir = EmptyString \/ exists d, dir = (d ++ "/")%string.

(** The name of the file of the reflected paths of the reflector [nr]. *)
Definition rp_filename (prefix : string) (nr : nat) : string :=
  (prefix ++ "_rp" ++ Ttcr3d.to_string (nr + 1) ++ ".vtp")%string.

(** The file name of an output. *)
Definition output_name {T : Type} (o : Ttcr3d.output T) : string :=
  match o with
  | Ttcr3d.SaveRayPaths f _ => f
  | Ttcr3d.BinaryFile f _ => f
  end.

End Spec.

(** ** Concrete inputs used below *)
Module Examples.

(** The constant [small] at [1e-5], as the nearest [double]. *)
Definition small_double : float := 0x1.4f8b588e368f1p-17%float.

(** A grid of 2 x 2 x 2 cells of size 2 with origin 0, in [double]. *)
Definition grid2_double : Grid3Dr.t float :=
  Grid3Dr.new 2 2 2 2%float 2%float 2%float 0%float 0%float 0%float 0 0 0 1.

(** A grid of a single cell of size 1. *)
Definition grid1_double : Grid3Dr.t float :=
  Grid3Dr.new 1 1 1 1%float 1%float 1%float 0%float 0%float 0%float 0 0 0 1.

(** A grid of 2 x 2 x 2 cells of size 1 whose x axis starts at [2^53]:
    the x coordinates of the grid are the doubles [2^53] and [2^53 + 2],
    two units apart. *)
Definition grid_far : Grid3Dr.t float :=
  Grid3Dr.new 2 2 2 1%float 1%float 1%float 0x1p53%float 0%float 0%float 0 0 0 1.

Definition dpt (a b c : float) : Sxyz.sxyz float := Sxyz.mk a b c.

(** Points of ray paths, with rational coordinates. *)
Definition pt (a b c : Z) : Sxyz.sxyz Q :=
  Sxyz.mk (inject_Z a) (inject_Z b) (inject_Z c).

(** Equality of points, coordinate by coordinate. *)
Definition pt_eqb (a b : Sxyz.sxyz Q) : bool :=
  Qeq_bool (Sxyz.x a) (Sxyz.x b) &&
  Qeq_bool (Sxyz.y a) (Sxyz.y b) &&
  Qeq_bool (Sxyz.z a) (Sxyz.z b).

(** Equality of points in [double], coordinate by coordinate. *)
Definition dpt_eqb (a b : Sxyz.sxyz float) : bool :=
  PrimFloat.eqb (Sxyz.x a) (Sxyz.x b) &&
  PrimFloat.eqb (Sxyz.y a) (Sxyz.y b) &&
  PrimFloat.eqb (Sxyz.z a) (Sxyz.z b).

(** Two source-to-reflector paths of a reflector, and the
    reflector-to-receiver paths of two receivers. *)
Definition rfl_paths : list (Ttcr3d.path Q) :=
  [[pt 0 0 0; pt 1 0 0; pt 2 0 0]; [pt 0 0 0; pt 5 0 0]].

Definition rcv_paths : list (Ttcr3d.path Q) :=
  [[pt 2 0 0; pt 3 0 0]; [pt 5 0 0; pt 6 0 0]].

(** The second receiver starts where no path of the reflector ends. *)
Definition rcv_paths_unmatched : list (Ttcr3d.path Q) :=
  [[pt 2 0 0; pt 3 0 0]; [pt 7 0 0; pt 6 0 0]].

(** Direct ray paths of two sources, one receiver each. *)
Definition direct_paths : list (list (Ttcr3d.path Q)) :=
  [[[pt 0 0 0; pt 1 0 0]]; [[pt 0 0 0; pt 2 0 0]]].

(** The schedule of 10 sources on 3 threads, and of 23 sources on 4. *)
Definition schedule_10_3 : Ttcr3d.schedule :=
  Ttcr3d.mk_schedule [Ttcr3d.mk_job 0 4 1; Ttcr3d.mk_job 4 8 2] (Ttcr3d.mk_job 8 10 0).

Definition schedule_23_4 : Ttcr3d.schedule :=
  Ttcr3d.mk_schedule [Ttcr3d.mk_job 0 6 1; Ttcr3d.mk_job 6 12 2; Ttcr3d.mk_job 12 18 3]
                     (Ttcr3d.mk_job 18 23 0).

End Examples.

(** * Properties *)

(** ** Machine arithmetic *)

Lemma U32_wrap_range (v : Z) : U32.in_range (U32.wrap v).
Proof.
  unfold U32.in_range, U32.wrap, U32.modulus.
  apply Z.mod_pos_bound. reflexivity.
Qed.

Lemma U32_wrap_small (v : Z) : U32.in_range v -> U32.wrap v = v.
Proof.
  unfold U32.in_range, U32.wrap. intros Hv. now apply Z.mod_small.
Qed.

Lemma SizeT_wrap_small (v : Z) : SizeT.in_range v -> SizeT.wrap v = v.
Proof.
  unfold SizeT.in_range, SizeT.wrap. intros Hv. now apply Z.mod_small.
Qed.

(** ** Cell indexing *)

(** The index computed step by step in the arithmetic of [T2] is the
    integer [ny*ncx + nz*(ncx*ncy) + nx] reduced modulo [2^32]. *)
Lemma U32_index_formula (nx ny nz cx cy : Z) :
  U32.add (U32.add (U32.mul ny cx) (U32.mul nz (U32.mul cx cy))) nx =
  (ny * cx + nz * (cx * cy) + nx) mod 2 ^ 32.
Proof.
  unfold U32.add, U32.mul, U32.wrap, U32.modulus.
  rewrite Z.mul_mod_idemp_r by lia.
  rewrite <- Z.add_mod by lia.
  rewrite Z.add_mod_idemp_l by lia.
  reflexivity.
Qed.

Section CellIndexProps.
Context {T1 : Type} {ST : Scalar T1}.
Variable small : T1.

(** The conversion of line 93 on one axis is the cell number of that
    axis. *)
Lemma cast_T2_axis_cell (minv maxv d c : T1) :
  Grid3Dr.cast_T2
    (s_add small
       (s_div (s_sub (if s_ltb (s_sub maxv c) small
                      then s_sub maxv (s_mul s_half d) else c) minv) d)) =
  Spec.axis_cell small minv maxv d c.
Proof.
  unfold Grid3Dr.cast_T2, Spec.axis_cell, Spec.snap.
  destruct (s_trunc _) as [n|]; [|reflexivity].
  change U32.modulus with (2 ^ 32). reflexivity.
Qed.

Lemma getCellNo_cellIndex (g : Grid3Dr.t T1) (pt : Sxyz.sxyz T1) :
  Grid3Dr.getCellNo small g pt =
  Spec.cellIndex small g (Sxyz.x pt) (Sxyz.y pt) (Sxyz.z pt).
Proof.
  unfold Grid3Dr.getCellNo, Spec.cellIndex, Spec.cell_x, Spec.cell_y, Spec.cell_z.
  cbv zeta. rewrite !cast_T2_axis_cell.
  destruct (Spec.axis_cell small (Grid3Dr.xmin g) _ _ _) as [nx|]; [|reflexivity].
  destruct (Spec.axis_cell small (Grid3Dr.ymin g) _ _ _) as [ny|]; [|reflexivity].
  destruct (Spec.axis_cell small (Grid3Dr.zmin g) _ _ _) as [nz|]; [|reflexivity].
  now rewrite U32_index_formula.
Qed.

Lemma getCellNo_node_cellIndex {NODE : Type} {NL : NodeLike T1 NODE}
      (g : Grid3Dr.t T1) (node : NODE) :
  Grid3Dr.getCellNo_node small g node =
  Spec.cellIndex small g (getX node) (getY node) (getZ node).
Proof.
  unfold Grid3Dr.getCellNo_node, Spec.cellIndex, Spec.cell_x, Spec.cell_y, Spec.cell_z.
  cbv zeta. rewrite !cast_T2_axis_cell.
  destruct (Spec.axis_cell small (Grid3Dr.xmin g) _ _ _) as [nx|]; [|reflexivity].
  destruct (Spec.axis_cell small (Grid3Dr.ymin g) _ _ _) as [ny|]; [|reflexivity].
  destruct (Spec.axis_cell small (Grid3Dr.zmin g) _ _ _) as [nz|]; [|reflexivity].
  now rewrite U32_index_formula.
Qed.

(** A cell number is a value of [T2]. *)
Lemma axis_cell_range (minv maxv d c : T1) (n : Z) :
  Spec.axis_cell small minv maxv d c = Some n -> 0 <= n < 2 ^ 32.
Proof.
  unfold Spec.axis_cell. destruct (s_trunc _) as [m|]; [|discriminate].
  destruct ((0 <=? m) && (m <? 2 ^ 32)) eqn:E; [|discriminate].
  intros H. injection H as <-. apply andb_true_iff in E. lia.
Qed.

(** Below the cell counts, and when the number of cells fits in [T2],
    nothing is lost in the reduction. *)
Lemma index_no_overflow (i j k cx cy cz : Z) :
  0 <= i < cx -> 0 <= j < cy -> 0 <= k < cz -> cx * cy * cz < 2 ^ 32 ->
  (j * cx + k * (cx * cy) + i) mod 2 ^ 32 = j * cx + k * (cx * cy) + i.
Proof.
  intros Hi Hj Hk Hn. apply Z.mod_small.
  assert (H1 : (j + 1) * cx <= cy * cx) by nia.
  assert (H2 : 0 <= cx * cy) by nia.
  assert (H3 : (k + 1) * (cx * cy) <= cz * (cx * cy)) by nia.
  nia.
Qed.

(** Where a coordinate is less than [max + small], being within [small]
    of the maximum is being greater than [max - small]. *)
Lemma claimed_axis_cell_below (minv maxv d c : T1) (n : Z) :
  s_ltb (s_sub c maxv) small = true ->
  Spec.axis_cell small minv maxv d c = Some n ->
  Spec.claimed_axis_cell small minv maxv d c = Some n.
Proof.
  intros Hb. unfold Spec.axis_cell, Spec.claimed_axis_cell, Spec.claimed_snap,
    Spec.within_small, Spec.snap.
  rewrite Hb, andb_true_r.
  destruct (s_trunc _) as [m|]; [|discriminate].
  destruct ((0 <=? m) && (m <? 2 ^ 32)); [|discriminate]. auto.
Qed.

End CellIndexProps.

(** C3 fails on the code. On a grid of 2 x 2 x 2 cells of size 1 whose x
    axis starts at [2^53], in [double] and with [small = 1e-5] (less
    than half the cell size on each axis), the upper corner of the grid
    passes [check_pts], and its coordinate on the x axis equals the
    maximum of that axis; yet it gets the cell number 2 on that axis of
    2 cells, and [getCellNo] returns 8, the number of cells, one past the
    index of the last cell. The subtraction [xmax - .5*dx] gives [xmax]
    again, the doubles around [2^53 + 2] being two units apart: whatever
    the value of [small], the quotient to which it is added is already 2. *)
Theorem C3_max_boundary_one_past_the_end :
  let g := Examples.grid_far in
  let small := Examples.small_double in
  let p := Examples.dpt (Grid3Dr.xmax g) (Grid3Dr.ymax g) (Grid3Dr.zmax g) in
  (s_ltb small (s_mul s_half (Grid3Dr.dx g)) = true /\
   s_ltb small (s_mul s_half (Grid3Dr.dy g)) = true /\
   s_ltb small (s_mul s_half (Grid3Dr.dz g)) = true) /\
  Grid3Dr.check_pts g [p] = (0, []) /\
  (Grid3Dr.ncx g = 2 /\ Spec.cell_x small g (Sxyz.x p) = Some 2) /\
  (Grid3Dr.getCellNo small g p = Some 8 /\ Grid3Dr.getNumberOfCells g = 8) /\
  s_sub (Grid3Dr.xmax g) (s_mul s_half (Grid3Dr.dx g)) = Grid3Dr.xmax g /\
  (forall s : float,
      s_div (s_sub (Spec.snap s (Grid3Dr.xmax g) (Grid3Dr.dx g) (Sxyz.x p))
                   (Grid3Dr.xmin g)) (Grid3Dr.dx g) = 2%float).
Proof.
  cbv zeta.
  split; [repeat split; vm_compute; reflexivity|].
  split; [vm_compute; reflexivity|].
  split; [split; vm_compute; reflexivity|].
  split; [split; vm_compute; reflexivity|].
  split; [vm_compute; reflexivity|].
  intros s. unfold Spec.snap.
  destruct (s_ltb _ s); vm_compute; reflexivity.
Qed.

(** C7, as amended. For every real type and every point, given as a
    triple or through [getX], [getY], [getZ]: along each axis the
    coordinate is first moved to [max - 0.5*cellSize] when it is greater
    than [max - small], and the cell number of the axis is the integer
    truncation of [small + (coord - min)/cellSize]; when the three cell
    numbers are values of [T2], [getCellNo] returns the integer
    [ny*ncx + nz*(ncx*ncy) + nx] reduced modulo [2^32], a value of [T2],
    and otherwise a conversion to [T2] is undefined and so is the call;
    the two overloads agree on equal coordinates; when the cell numbers
    are below the cell counts and the number of cells fits in [T2], the
    value is the integer [ny*ncx + nz*(ncx*ncy) + nx] itself; and for a
    point none of whose coordinates reaches [max + small], that integer
    is the one of the specification, which moves only the coordinates
    within [small] of the maximum. *)
Theorem C7_getCellNo_formula :
  forall (T1 : Type) (ST : Scalar T1) (small : T1) (g : Grid3Dr.t T1),
    (forall p : Sxyz.sxyz T1,
        Grid3Dr.getCellNo small g p =
        Spec.cellIndex small g (Sxyz.x p) (Sxyz.y p) (Sxyz.z p)) /\
    (forall (NODE : Type) (NL : NodeLike T1 NODE) (node : NODE),
        Grid3Dr.getCellNo_node small g node =
        Spec.cellIndex small g (getX node) (getY node) (getZ node)) /\
    (forall (NODE : Type) (NL : NodeLike T1 NODE) (node : NODE) (p : Sxyz.sxyz T1),
        getX node = Sxyz.x p -> getY node = Sxyz.y p -> getZ node = Sxyz.z p ->
        Grid3Dr.getCellNo_node small g node = Grid3Dr.getCellNo small g p) /\
    (forall p : Sxyz.sxyz T1,
        (exists n, Grid3Dr.getCellNo small g p = Some n) <->
        (exists i j k, Spec.cell_x small g (Sxyz.x p) = Some i /\
                       Spec.cell_y small g (Sxyz.y p) = Some j /\
                       Spec.cell_z small g (Sxyz.z p) = Some k)) /\
    (forall (p : Sxyz.sxyz T1) (n : Z),
        Grid3Dr.getCellNo small g p = Some n -> U32.in_range n) /\
    (forall (p : Sxyz.sxyz T1) (i j k : Z),
        Spec.cell_x small g (Sxyz.x p) = Some i ->
        Spec.cell_y small g (Sxyz.y p) = Some j ->
        Spec.cell_z small g (Sxyz.z p) = Some k ->
        i < Grid3Dr.ncx g -> j < Grid3Dr.ncy g -> k < Grid3Dr.ncz g ->
        Grid3Dr.ncx g * Grid3Dr.ncy g * Grid3Dr.ncz g < U32.modulus ->
        Grid3Dr.getCellNo small g p =
        Some (j * Grid3Dr.ncx g + k * (Grid3Dr.ncx g * Grid3Dr.ncy g) + i) /\
        (s_ltb (s_sub (Sxyz.x p) (Grid3Dr.xmax g)) small = true ->
         s_ltb (s_sub (Sxyz.y p) (Grid3Dr.ymax g)) small = true ->
         s_ltb (s_sub (Sxyz.z p) (Grid3Dr.zmax g)) small = true ->
         Grid3Dr.getCellNo small g p =
         Spec.claimed_cellIndex small g (Sxyz.x p) (Sxyz.y p) (Sxyz.z p))).
Proof.
  intros T1 ST small g.
  split; [|split; [|split; [|split; [|split]]]].
  - intros p. apply getCellNo_cellIndex.
  - intros NODE NL node. apply getCellNo_node_cellIndex.
  - intros NODE NL node p Hx Hy Hz.
    rewrite getCellNo_node_cellIndex, getCellNo_cellIndex.
    now rewrite Hx, Hy, Hz.
  - intros p. rewrite getCellNo_cellIndex. unfold Spec.cellIndex. split.
    + intros (n & Hn).
      destruct (Spec.cell_x small g (Sxyz.x p)) as [i|]; [|discriminate].
      destruct (Spec.cell_y small g (Sxyz.y p)) as [j|]; [|discriminate].
      destruct (Spec.cell_z small g (Sxyz.z p)) as [k|]; [|discriminate].
      exists i, j, k. auto.
    + intros (i & j & k & -> & -> & ->). eexists. reflexivity.
  - intros p n. rewrite getCellNo_cellIndex. unfold Spec.cellIndex.
    destruct (Spec.cell_x small g (Sxyz.x p)) as [i|]; [|discriminate].
    destruct (Spec.cell_y small g (Sxyz.y p)) as [j|]; [|discriminate].
    destruct (Spec.cell_z small g (Sxyz.z p)) as [k|]; [|discriminate].
    intros H. injection H as <-.
    unfold U32.in_range, U32.modulus. apply Z.mod_pos_bound. reflexivity.
  - intros p i j k Hi Hj Hk Bi Bj Bk Hn.
    pose proof (axis_cell_range small _ _ _ _ _ Hi) as Ri.
    pose proof (axis_cell_range small _ _ _ _ _ Hj) as Rj.
    pose proof (axis_cell_range small _ _ _ _ _ Hk) as Rk.
    assert (E : Grid3Dr.getCellNo small g p =
                Some (j * Grid3Dr.ncx g + k * (Grid3Dr.ncx g * Grid3Dr.ncy g) + i)).
    { rewrite getCellNo_cellIndex. unfold Spec.cellIndex. rewrite Hi, Hj, Hk.
      f_equal. apply (index_no_overflow i j k _ _ (Grid3Dr.ncz g)); try lia.
      exact Hn. }
    split; [exact E|].
    intros Lx Ly Lz. rewrite E. unfold Spec.claimed_cellIndex.
    rewrite (claimed_axis_cell_below small _ _ _ _ i Lx Hi).
    rewrite (claimed_axis_cell_below small _ _ _ _ j Ly Hj).
    rewrite (claimed_axis_cell_below small _ _ _ _ k Lz Hk).
    reflexivity.
Qed.

Lemma C7_getCellNo_formula_witness :
  Grid3Dr.getCellNo Examples.small_double Examples.grid2_double
                    (Examples.dpt 3 1 2) = Some 5 /\
  Spec.claimed_cellIndex Examples.small_double Examples.grid2_double
                         3%float 1%float 2%float = Some 5 /\
  Grid3Dr.getCellNo_node Examples.small_double Examples.grid2_double
                         (mk_Node3D 3%float 1%float 2%float 0%float) = Some 5.
Proof.
  destruct (C7_getCellNo_formula float Double_Scalar Examples.small_double
                                 Examples.grid2_double)
    as (_ & _ & Hnode & _ & _ & Hval).
  destruct (Hval (Examples.dpt 3 1 2) 1 0 1) as (E & Hc);
    try (vm_compute; reflexivity).
  change (0 * Grid3Dr.ncx Examples.grid2_double +
          1 * (Grid3Dr.ncx Examples.grid2_double * Grid3Dr.ncy Examples.grid2_double)
          + 1) with 5 in E.
  split; [exact E|]. split.
  - rewrite <- E. symmetry. apply Hc; vm_compute; reflexivity.
  - rewrite (Hnode (Node3D float) (Node3D_NodeLike float)
                   (mk_Node3D 3%float 1%float 2%float 0%float) (Examples.dpt 3 1 2));
      [exact E | reflexivity | reflexivity | reflexivity].
Defined.

(** C7, as stated, fails, in [double] with [small = 1e-5] on the grid of
    2 x 2 x 2 cells of size 2. The point (100, 0, 0) is not within
    [small] of the maximum 4 of the x axis: the formula of the claim
    gives the cell number 50 and the index 50, where [getCellNo] moves
    the coordinate to 3 and returns 1. At the point (-3, 0, 0) the
    integer part of [small - 1.5], which is -1, is not a value of [T2]:
    the conversion is undefined, no index is returned. *)
Lemma C7_counterexample :
  Grid3Dr.getCellNo Examples.small_double Examples.grid2_double
                    (Examples.dpt 100 0 0) = Some 1 /\
  Spec.claimed_cellIndex Examples.small_double Examples.grid2_double
                         100%float 0%float 0%float = Some 50 /\
  Grid3Dr.getCellNo Examples.small_double Examples.grid2_double
                    (Examples.dpt (-3) 0 0) = None.
Proof.
  split; [|split]; vm_compute; reflexivity.
Qed.

(** ** Bounds checking *)

Section CheckPts.
Context {T1 : Type} {ST : Scalar T1}.
Variable g : Grid3Dr.t T1.

Lemma outside_iff (p : Sxyz.sxyz T1) :
  Grid3Dr.outside g p = true <-> Spec.strictly_outside g p.
Proof.
  unfold Grid3Dr.outside, Spec.strictly_outside, s_gtb.
  rewrite !orb_true_iff. tauto.
Qed.

Lemma outside_false_iff (p : Sxyz.sxyz T1) :
  Grid3Dr.outside g p = false <-> ~ Spec.strictly_outside g p.
Proof.
  rewrite <- outside_iff. destruct (Grid3Dr.outside g p); split; congruence.
Qed.

Lemma check_pts_from_accepts (pts : list (Sxyz.sxyz T1)) :
  forall n, (forall p, In p pts -> Grid3Dr.outside g p = false) ->
            Grid3Dr.check_pts_from g n pts = (0, []).
Proof.
  induction pts as [|p rest IH]; intros n Hall; simpl.
  - reflexivity.
  - rewrite (Hall p) by (left; reflexivity).
    apply IH. intros q Hq. apply Hall. right. exact Hq.
Qed.

Lemma check_pts_from_first (pts : list (Sxyz.sxyz T1)) :
  forall (n k : nat) (p : Sxyz.sxyz T1),
    nth_error pts k = Some p ->
    Grid3Dr.outside g p = true ->
    (forall j q, (j < k)%nat -> nth_error pts j = Some q ->
                 Grid3Dr.outside g q = false) ->
    Grid3Dr.check_pts_from g n pts = (1, [Grid3Dr.PointOutsideGrid (n + k + 1)]).
Proof.
  induction pts as [|a rest IH]; intros n k p Hk Hout Hbefore.
  - destruct k; discriminate.
  - destruct k as [|k]; simpl in *.
    + injection Hk as ->. rewrite Hout. now rewrite Nat.add_0_r.
    + rewrite (Hbefore 0%nat a) by (simpl; auto; lia).
      rewrite (IH (S n) k p Hk Hout).
      * do 3 f_equal. lia.
      * intros j q Hj Hq. apply (Hbefore (S j) q); [lia | exact Hq].
Qed.

Lemma first_offender (pts : list (Sxyz.sxyz T1)) :
  (exists p, In p pts /\ Grid3Dr.outside g p = true) ->
  exists k p, nth_error pts k = Some p /\ Grid3Dr.outside g p = true /\
              forall j q, (j < k)%nat -> nth_error pts j = Some q ->
                          Grid3Dr.outside g q = false.
Proof.
  induction pts as [|a rest IH]; intros (p & Hin & Hout).
  - destruct Hin.
  - destruct (Grid3Dr.outside g a) eqn:Ea.
    + exists 0%nat, a. repeat split; auto. intros j q Hj. lia.
    + destruct Hin as [-> | Hin]; [congruence|].
      destruct IH as (k & q & Hk & Hq & Hbefore); [now exists p|].
      exists (S k), q. repeat split; auto.
      intros [|j] r Hj Hr; simpl in Hr.
      * now injection Hr as <-.
      * apply (Hbefore j r); [lia | exact Hr].
Qed.

End CheckPts.

(** C4: [check_pts] returns 1 and reports a point exactly when some
    point has a coordinate with [x < xmin] or [x > xmax] (likewise for y
    and z); the point reported is the first such point, counted from 1;
    when no point is outside, and in particular on the empty list, it
    returns 0 and prints nothing. *)
Theorem C4_check_pts_first_offender :
  forall (T1 : Type) (ST : Scalar T1) (g : Grid3Dr.t T1) (pts : list (Sxyz.sxyz T1)),
    ((exists no, Grid3Dr.check_pts g pts = (1, [Grid3Dr.PointOutsideGrid no])) <->
     (exists p, In p pts /\ Spec.strictly_outside g p)) /\
    (forall (k : nat) (p : Sxyz.sxyz T1),
        nth_error pts k = Some p ->
        Spec.strictly_outside g p ->
        (forall j q, (j < k)%nat -> nth_error pts j = Some q ->
                     ~ Spec.strictly_outside g q) ->
        Grid3Dr.check_pts g pts = (1, [Grid3Dr.PointOutsideGrid (k + 1)])) /\
    ((forall p, In p pts -> ~ Spec.strictly_outside g p) ->
     Grid3Dr.check_pts g pts = (0, [])) /\
    Grid3Dr.check_pts g [] = (0, []).
Proof.
  intros T1 ST g pts.
  assert (Hfirst : forall (k : nat) (p : Sxyz.sxyz T1),
             nth_error pts k = Some p ->
             Spec.strictly_outside g p ->
             (forall j q, (j < k)%nat -> nth_error pts j = Some q ->
                          ~ Spec.strictly_outside g q) ->
             Grid3Dr.check_pts g pts = (1, [Grid3Dr.PointOutsideGrid (k + 1)])).
  { intros k p Hk Hout Hbefore. unfold Grid3Dr.check_pts.
    apply (check_pts_from_first g pts 0 k p Hk).
    - now apply outside_iff.
    - intros j q Hj Hq. apply outside_false_iff. now apply (Hbefore j q). }
  assert (Hnone : (forall p, In p pts -> ~ Spec.strictly_outside g p) ->
                  Grid3Dr.check_pts g pts = (0, [])).
  { intros Hall. unfold Grid3Dr.check_pts. apply check_pts_from_accepts.
    intros p Hp. apply outside_false_iff. now apply Hall. }
  split; [|split; [exact Hfirst | split; [exact Hnone | reflexivity]]].
  split.
  - intros (no & Hno).
    destruct (existsb (Grid3Dr.outside g) pts) eqn:Ex.
    + apply existsb_exists in Ex. destruct Ex as (p & Hin & Hout).
      exists p. split; [exact Hin | now apply outside_iff].
    + exfalso. rewrite Hnone in Hno; [discriminate|].
      intros p Hp. apply outside_false_iff.
      destruct (Grid3Dr.outside g p) eqn:Ep; [|reflexivity].
      assert (existsb (Grid3Dr.outside g) pts = true)
        by (apply existsb_exists; eauto).
      congruence.
  - intros (p & Hin & Hout).
    destruct (first_offender g pts) as (k & q & Hk & Hq & Hbefore).
    { exists p. split; [exact Hin | now apply outside_iff]. }
    exists (k + 1)%nat. apply (Hfirst k q Hk).
    + now apply outside_iff.
    + intros j r Hj Hr. apply outside_false_iff. now apply (Hbefore j r).
Qed.

Lemma C4_check_pts_first_offender_witness :
  Grid3Dr.check_pts Examples.grid2_double
    [Examples.dpt 0 0 0; Examples.dpt 4 4 4; Examples.dpt 1 5 1; Examples.dpt 9 9 9] =
  (1, [Grid3Dr.PointOutsideGrid 3]) /\
  Grid3Dr.check_pts Examples.grid2_double [Examples.dpt 0 0 0; Examples.dpt 4 4 4] =
  (0, []).
Proof.
  split.
  - destruct (C4_check_pts_first_offender float Double_Scalar Examples.grid2_double
                [Examples.dpt 0 0 0; Examples.dpt 4 4 4; Examples.dpt 1 5 1;
                 Examples.dpt 9 9 9]) as (_ & Hfirst & _).
    apply (Hfirst 2%nat (Examples.dpt 1 5 1)).
    + reflexivity.
    + unfold Spec.strictly_outside. right. right. right. left.
      vm_compute. reflexivity.
    + intros j q Hj Hq.
      destruct j as [|[|j]]; [| |lia]; simpl in Hq; injection Hq as <-;
        unfold Spec.strictly_outside; vm_compute; intuition discriminate.
  - destruct (C4_check_pts_first_offender float Double_Scalar Examples.grid2_double
                [Examples.dpt 0 0 0; Examples.dpt 4 4 4]) as (_ & _ & Hnone & _).
    apply Hnone. intros p [<- | [<- | []]];
      unfold Spec.strictly_outside; vm_compute; intuition discriminate.
Defined.

(** ** Slowness assignment *)

(** C8, as amended: the [setSlowness] of [Grid3Dr] for a sequence checks
    nothing: for every sequence, of any length, it returns 0 and leaves
    the grid as it was; [setSlowness] for a scalar leaves the grid as it
    was and cannot fail. *)
Theorem C8_setSlowness_accepts_everything :
  forall (T1 : Type) (ST : Scalar T1) (g : Grid3Dr.t T1),
    (forall s : list T1, Grid3Dr.setSlowness_vec g s = (0, g)) /\
    (forall s : T1, Grid3Dr.setSlowness g s = g).
Proof.
  intros T1 ST g. split; intros s; reflexivity.
Qed.

(** C8, as stated, fails: on a grid of one cell (and no node) a
    sequence of two values is accepted. *)
Lemma C8_counterexample :
  Z.of_nat (length [1%float; 1%float]) <>
  Grid3Dr.getNumberOfCells Examples.grid1_double /\
  Z.of_nat (length [1%float; 1%float]) <>
  Grid3Dr.getNumberOfNodes Examples.grid1_double /\
  fst (Grid3Dr.setSlowness_vec Examples.grid1_double [1%float; 1%float]) = 0.
Proof.
  repeat split; vm_compute; discriminate.
Qed.

(** ** Thread count *)

Lemma ceil_div_eq (n d : Z) : 0 < d -> Spec.ceil_div n d = - ((- n) / d).
Proof.
  intros Hd. unfold Spec.ceil_div, Qceiling, Qfloor. simpl.
  now rewrite Z2Pos.id.
Qed.

Lemma ceil_div_bounds (n d : Z) :
  0 < d -> d * (Spec.ceil_div n d - 1) < n <= d * Spec.ceil_div n d.
Proof.
  intros Hd. rewrite ceil_div_eq by exact Hd.
  pose proof (Z.div_mod (- n) d) as E.
  pose proof (Z.mod_pos_bound (- n) d Hd) as B.
  nia.
Qed.

Lemma ceil_div_unique (n d c : Z) :
  0 < d -> d * (c - 1) < n <= d * c -> Spec.ceil_div n d = c.
Proof.
  intros Hd Hc. pose proof (ceil_div_bounds n d Hd) as B. nia.
Qed.

Lemma num_threads_auto (hw nTx : Z) :
  0 <= nTx -> nTx + Ttcr3d.min_per_thread < SizeT.modulus ->
  Ttcr3d.num_threads 0 hw nTx =
  Z.min (if hw =? 0 then 2 else hw) (Spec.ceil_div nTx Ttcr3d.min_per_thread).
Proof.
  unfold Ttcr3d.min_per_thread, SizeT.modulus. intros H0 H1.
  unfold Ttcr3d.num_threads. simpl (0 =? 0).
  cbv iota.
  unfold SizeT.add, SizeT.sub, Ttcr3d.min_per_thread.
  rewrite (SizeT_wrap_small (nTx + 5)) by (unfold SizeT.in_range, SizeT.modulus; lia).
  rewrite (SizeT_wrap_small (nTx + 5 - 1)) by (unfold SizeT.in_range, SizeT.modulus; lia).
  f_equal.
  - now destruct (hw =? 0).
  - symmetry. apply ceil_div_unique; [lia|].
    pose proof (Z.div_mod (nTx + 5 - 1) 5) as E.
    pose proof (Z.mod_pos_bound (nTx + 5 - 1) 5) as B. lia.
Qed.

Lemma blk_size_ceil (nTx nt : Z) :
  0 < nt -> 0 <= nTx < SizeT.modulus - 1 ->
  Ttcr3d.blk_size nTx nt = Some (Spec.ceil_div nTx nt).
Proof.
  intros Hnt HnTx. unfold Ttcr3d.blk_size.
  destruct (Z.eqb_spec nt 0) as [->|_]; [lia|].
  f_equal. unfold SizeT.add.
  pose proof (Z.div_mod nTx nt) as E.
  pose proof (Z.mod_pos_bound nTx nt Hnt) as B.
  assert (Hq : 0 <= nTx / nt <= nTx).
  { split; [apply Z.div_pos; lia|]. apply Z.div_le_upper_bound; nia. }
  destruct (Z.eqb_spec (nTx mod nt) 0) as [Hz|Hz]; simpl negb; cbv iota.
  - rewrite SizeT_wrap_small by (unfold SizeT.in_range; lia).
    symmetry. apply ceil_div_unique; [lia|]. nia.
  - rewrite SizeT_wrap_small by (unfold SizeT.in_range; lia).
    symmetry. apply ceil_div_unique; [lia|]. nia.
Qed.

Lemma num_threads_explicit (par_nt hw nTx : Z) :
  0 < par_nt -> Ttcr3d.num_threads par_nt hw nTx = Z.min par_nt nTx.
Proof.
  intros Hnt. unfold Ttcr3d.num_threads.
  destruct (Z.eqb_spec par_nt 0) as [E|_]; [lia|].
  destruct (Z.ltb_spec par_nt nTx); lia.
Qed.

Lemma num_threads_bounds (par_nt hw nTx : Z) :
  0 <= par_nt -> 0 <= hw ->
  1 <= nTx -> nTx + Ttcr3d.min_per_thread < SizeT.modulus ->
  1 <= Ttcr3d.num_threads par_nt hw nTx <= nTx.
Proof.
  intros Hnt Hhw H1 H2.
  destruct (Z.eq_dec par_nt 0) as [->|Hne].
  - rewrite num_threads_auto by lia.
    pose proof (ceil_div_bounds nTx Ttcr3d.min_per_thread) as B.
    unfold Ttcr3d.min_per_thread in *.
    destruct (Z.eqb_spec hw 0); lia.
  - rewrite num_threads_explicit by lia. lia.
Qed.

(** C5: with an explicit thread count [nt > 0] the number of threads is
    [min(nt, nSources)]; with [nt = 0] it is [min(h, ceil(nSources/5))]
    where [h] is the hardware concurrency, or 2 when that is reported
    as 0; for 23 sources and a hardware concurrency of 8 it is at most
    [ceil(23/5) = 5] and at most 8. *)
Theorem C5_num_threads_policy :
  forall par_nt hw nTx : Z,
    0 <= nTx -> nTx + Ttcr3d.min_per_thread < SizeT.modulus ->
    (0 < par_nt -> Ttcr3d.num_threads par_nt hw nTx = Z.min par_nt nTx) /\
    (par_nt = 0 ->
     Ttcr3d.num_threads par_nt hw nTx =
     Z.min (if hw =? 0 then 2 else hw) (Spec.ceil_div nTx 5)) /\
    Spec.ceil_div 23 5 = 5 /\
    Ttcr3d.num_threads 0 8 23 <= Spec.ceil_div 23 5 /\
    Ttcr3d.num_threads 0 8 23 <= 8.
Proof.
  intros par_nt hw nTx H0 H1.
  split; [|split; [|split; [|split]]].
  - apply num_threads_explicit.
  - intros ->. now apply num_threads_auto.
  - reflexivity.
  - vm_compute. discriminate.
  - vm_compute. discriminate.
Qed.

Lemma C5_num_threads_policy_witness :
  Ttcr3d.num_threads 3 8 23 = 3 /\
  Ttcr3d.num_threads 40 8 23 = 23 /\
  Ttcr3d.num_threads 0 8 23 = 5 /\
  Ttcr3d.num_threads 0 0 23 = 2.
Proof.
  assert (H0 : 0 <= 23) by lia.
  assert (H1 : 23 + Ttcr3d.min_per_thread < SizeT.modulus) by reflexivity.
  split; [|split; [|split]].
  - rewrite (proj1 (C5_num_threads_policy 3 8 23 H0 H1)) by lia. reflexivity.
  - rewrite (proj1 (C5_num_threads_policy 40 8 23 H0 H1)) by lia. reflexivity.
  - rewrite (proj1 (proj2 (C5_num_threads_policy 0 8 23 H0 H1))) by reflexivity.
    reflexivity.
  - rewrite (proj1 (proj2 (C5_num_threads_policy 0 0 23 H0 H1))) by reflexivity.
    reflexivity.
Defined.

(** ** Partition of the sources *)

Lemma job_sources_range (j : Ttcr3d.job) :
  Ttcr3d.job_sources j = Spec.range (Ttcr3d.blk_start j) (Ttcr3d.blk_end j).
Proof. reflexivity. Qed.

Lemma range_empty (lo hi : Z) : hi <= lo -> Spec.range lo hi = [].
Proof.
  intros H. unfold Spec.range.
  replace (Z.to_nat (hi - lo)) with 0%nat by lia. reflexivity.
Qed.

Lemma map_seq_offset {A : Type} (f : nat -> A) (m n : nat) :
  forall s, map f (seq (m + s) n) = map (fun k => f (m + k)%nat) (seq s n).
Proof.
  induction n as [|n IH]; intros s; simpl.
  - reflexivity.
  - f_equal. rewrite <- IH. now rewrite Nat.add_succ_r.
Qed.

Lemma range_app (a b c : Z) :
  a <= b -> b <= c -> Spec.range a b ++ Spec.range b c = Spec.range a c.
Proof.
  intros Hab Hbc. unfold Spec.range.
  replace (Z.to_nat (c - a)) with (Z.to_nat (b - a) + Z.to_nat (c - b))%nat by lia.
  rewrite seq_app, map_app. f_equal.
  rewrite Nat.add_0_l.
  rewrite <- (Nat.add_0_r (Z.to_nat (b - a))) at 1.
  rewrite map_seq_offset.
  apply map_ext. intros k. lia.
Qed.

Lemma range_in (lo hi n : Z) : In n (Spec.range lo hi) <-> lo <= n < hi.
Proof.
  unfold Spec.range. rewrite in_map_iff. split.
  - intros (k & <- & Hk). apply in_seq in Hk. lia.
  - intros H. exists (Z.to_nat (n - lo)). split; [lia|]. apply in_seq. lia.
Qed.

Lemma range_NoDup (lo hi : Z) : NoDup (Spec.range lo hi).
Proof.
  unfold Spec.range. apply Injective_map_NoDup.
  - intros a b H. lia.
  - apply seq_NoDup.
Qed.

(** The jobs started by the loop: [count] consecutive blocks of [size]
    sources, numbered from [i + 1]. *)
Lemma spawn_blocks (count : nat) :
  forall (i start size : Z),
    0 <= start -> 0 <= size ->
    start + Z.of_nat count * size < SizeT.modulus ->
    Ttcr3d.spawn count i start size =
    (map (fun k => Ttcr3d.mk_job (start + Z.of_nat k * size)
                                 (start + (Z.of_nat k + 1) * size)
                                 (i + Z.of_nat k + 1))
         (seq 0 count),
     start + Z.of_nat count * size).
Proof.
  induction count as [|count IH]; intros i start size Hs Hz Hb.
  - simpl. f_equal. lia.
  - cbn [Ttcr3d.spawn].
    assert (Hstop : SizeT.add start size = start + size).
    { apply SizeT_wrap_small. unfold SizeT.in_range. nia. }
    rewrite Hstop.
    rewrite IH by nia.
    f_equal; [|lia].
    cbn [seq map]. f_equal.
    + f_equal; lia.
    + rewrite <- seq_shift, map_map. apply map_ext. intros k.
      f_equal; lia.
Qed.

Lemma flat_map_blocks (count : nat) :
  forall (i start size : Z),
    0 <= size ->
    flat_map Ttcr3d.job_sources
      (map (fun k => Ttcr3d.mk_job (start + Z.of_nat k * size)
                                   (start + (Z.of_nat k + 1) * size)
                                   (i + Z.of_nat k + 1))
           (seq 0 count)) =
    Spec.range start (start + Z.of_nat count * size).
Proof.
  induction count as [|count IH]; intros i start size Hz.
  - simpl. rewrite range_empty; [reflexivity | lia].
  - rewrite seq_S, map_app, flat_map_app, IH by exact Hz.
    cbn [map flat_map Nat.add]. rewrite app_nil_r, job_sources_range.
    cbn [Ttcr3d.blk_start Ttcr3d.blk_end].
    replace (start + (Z.of_nat count + 1) * size)
      with (start + Z.of_nat (S count) * size) by lia.
    apply range_app; nia.
Qed.

(** The schedule, once the wrap-around of [size_t] is out of the way:
    [nt - 1] workers on consecutive blocks, the main thread on the rest. *)
Lemma dispatch_blocks (nTx nt size : Z) :
  1 <= nt < SizeT.modulus -> 0 <= size -> (nt - 1) * size < SizeT.modulus ->
  Ttcr3d.dispatch nTx nt size =
  Ttcr3d.mk_schedule
    (map (fun k => Ttcr3d.mk_job (Z.of_nat k * size) ((Z.of_nat k + 1) * size)
                                 (Z.of_nat k + 1))
         (seq 0 (Z.to_nat (nt - 1))))
    (Ttcr3d.mk_job ((nt - 1) * size) nTx 0).
Proof.
  intros Hnt Hsize Hb. unfold Ttcr3d.dispatch.
  destruct (Z.eqb_spec nt 1) as [->|Hne].
  - reflexivity.
  - unfold SizeT.sub. rewrite SizeT_wrap_small by (unfold SizeT.in_range; lia).
    rewrite spawn_blocks by lia.
    rewrite Z2Nat.id by lia. reflexivity.
Qed.

Lemma visited_dispatch (nTx nt size : Z) :
  1 <= nt < SizeT.modulus -> 0 <= size -> (nt - 1) * size < SizeT.modulus ->
  0 <= nTx ->
  Ttcr3d.visited (Ttcr3d.dispatch nTx nt size) =
  Spec.range 0 (Z.max nTx ((nt - 1) * size)).
Proof.
  intros Hnt Hsize Hb HnTx.
  rewrite dispatch_blocks by assumption.
  unfold Ttcr3d.visited. cbn [Ttcr3d.workers Ttcr3d.main_job].
  rewrite (map_ext _ (fun k => Ttcr3d.mk_job (0 + Z.of_nat k * size)
                                             (0 + (Z.of_nat k + 1) * size)
                                             (0 + Z.of_nat k + 1)))
    by (intros k; f_equal; lia).
  rewrite (flat_map_blocks (Z.to_nat (nt - 1)) 0 0 size Hsize).
  rewrite job_sources_range. cbn [Ttcr3d.blk_start Ttcr3d.blk_end].
  rewrite Z2Nat.id by lia. rewrite Z.add_0_l.
  destruct (Z.le_gt_cases ((nt - 1) * size) nTx) as [Hle|Hgt].
  - rewrite Z.max_l by lia. apply range_app; nia.
  - rewrite Z.max_r by lia. rewrite (range_empty _ nTx) by lia.
    apply app_nil_r.
Qed.

(** What holds of the partition for every run with at least one source:
    the thread count is between 1 and the number of sources, the block
    size is [ceil(nTx/num_threads)], [num_threads - 1] workers get the
    blocks [[i*blk, (i+1)*blk)], the main thread runs from the end of
    the last worker block to [nTx], and the sources visited are
    [0 .. max(nTx, (num_threads-1)*blk) - 1] in order, each once. *)
Theorem partition_of_sources (par_nt hw nTx : Z) :
  0 <= par_nt -> 0 <= hw -> 1 <= nTx -> 2 * nTx + Ttcr3d.min_per_thread < SizeT.modulus ->
  let nt := Ttcr3d.num_threads par_nt hw nTx in
  let blk := Spec.ceil_div nTx nt in
  let s := Ttcr3d.mk_schedule
             (map (fun k => Ttcr3d.mk_job (Z.of_nat k * blk) ((Z.of_nat k + 1) * blk)
                                          (Z.of_nat k + 1))
                  (seq 0 (Z.to_nat (nt - 1))))
             (Ttcr3d.mk_job ((nt - 1) * blk) nTx 0) in
  1 <= nt <= nTx /\
  Ttcr3d.plan par_nt hw nTx = Some s /\
  Z.of_nat (length (Ttcr3d.workers s)) = nt - 1 /\
  Ttcr3d.visited s = Spec.range 0 (Z.max nTx ((nt - 1) * blk)).
Proof.
  intros Hpar Hhw H1 H2 nt blk s.
  assert (Hnt : 1 <= nt <= nTx) by (apply num_threads_bounds; unfold Ttcr3d.min_per_thread in *; lia).
  assert (Hblk : nt * (blk - 1) < nTx <= nt * blk) by (apply ceil_div_bounds; lia).
  unfold Ttcr3d.min_per_thread in H2.
  assert (Hb : 0 <= blk /\ (nt - 1) * blk < SizeT.modulus) by nia.
  assert (Hplan : Ttcr3d.plan par_nt hw nTx = Some s).
  { unfold Ttcr3d.plan. fold nt.
    rewrite blk_size_ceil by lia. fold blk.
    rewrite dispatch_blocks by lia. reflexivity. }
  repeat split; try lia.
  - exact Hplan.
  - unfold s. cbn [Ttcr3d.workers]. rewrite length_map, length_seq. lia.
  - unfold s. rewrite <- dispatch_blocks by lia.
    apply visited_dispatch; lia.
Qed.

(** Every source is visited exactly once, whatever the settings. *)
Corollary every_source_visited_once (par_nt hw nTx : Z) (s : Ttcr3d.schedule) :
  0 <= par_nt -> 0 <= hw -> 1 <= nTx -> 2 * nTx + Ttcr3d.min_per_thread < SizeT.modulus ->
  Ttcr3d.plan par_nt hw nTx = Some s ->
  forall n, 0 <= n < nTx -> count_occ Z.eq_dec (Ttcr3d.visited s) n = 1%nat.
Proof.
  intros Hpar Hhw H1 H2 Hs n Hn.
  destruct (partition_of_sources par_nt hw nTx Hpar Hhw H1 H2) as (_ & Hp & _ & Hv).
  rewrite Hp in Hs. injection Hs as <-. rewrite Hv.
  apply NoDup_count_occ'; [apply range_NoDup|]. apply range_in. lia.
Qed.

(** No block passes the last source exactly when the worker blocks end
    at or before [nTx]. *)
Corollary partition_within_sources (par_nt hw nTx : Z) (s : Ttcr3d.schedule) :
  0 <= par_nt -> 0 <= hw -> 1 <= nTx -> 2 * nTx + Ttcr3d.min_per_thread < SizeT.modulus ->
  Ttcr3d.plan par_nt hw nTx = Some s ->
  let nt := Ttcr3d.num_threads par_nt hw nTx in
  (nt - 1) * Spec.ceil_div nTx nt <= nTx <->
  Ttcr3d.visited s = Spec.range 0 nTx.
Proof.
  intros Hpar Hhw H1 H2 Hs nt.
  destruct (partition_of_sources par_nt hw nTx Hpar Hhw H1 H2) as (_ & Hp & _ & Hv).
  rewrite Hp in Hs. injection Hs as <-. rewrite Hv. fold nt. split.
  - intros Hle. now rewrite Z.max_l by lia.
  - intros E.
    destruct (Z.le_gt_cases ((nt - 1) * Spec.ceil_div nTx nt) nTx) as [Hle|Hgt];
      [exact Hle|].
    exfalso. rewrite Z.max_r in E by lia.
    assert (Hin : In nTx (Spec.range 0 ((nt - 1) * Spec.ceil_div nTx nt)))
      by (apply range_in; lia).
    rewrite E in Hin. apply range_in in Hin. lia.
Qed.

(** C1 at the settings [par.nt = 4] with 5 sources: 4 threads and blocks
    of [ceil(5/4) = 2] sources; the three workers get [[0,2)], [[2,4)]
    and [[4,6)], the main thread nothing; the third worker visits the
    source number 5, which does not exist. *)
Theorem C1_worker_block_passes_last_source :
  Ttcr3d.num_threads 4 8 5 = 4 /\
  Ttcr3d.blk_size 5 4 = Some (Spec.ceil_div 5 4) /\
  Ttcr3d.plan 4 8 5 =
  Some (Ttcr3d.mk_schedule
          [Ttcr3d.mk_job 0 2 1; Ttcr3d.mk_job 2 4 2; Ttcr3d.mk_job 4 6 3]
          (Ttcr3d.mk_job 6 5 0)) /\
  Ttcr3d.job_sources (Ttcr3d.mk_job 4 6 3) = [4; 5] /\
  Ttcr3d.job_sources (Ttcr3d.mk_job 6 5 0) = [] /\
  Ttcr3d.in_src 5 5 = false.
Proof.
  repeat split.
Qed.

(** The same in auto mode: 1000 sources on a machine with a hardware
    concurrency of 128 give 128 threads and blocks of 8 sources, and the
    127 workers run up to the source number 1015. *)
Example auto_mode_blocks_pass_last_source :
  Ttcr3d.num_threads 0 128 1000 = 128 /\
  Ttcr3d.blk_size 1000 128 = Some 8 /\
  option_map (fun s => last (Ttcr3d.visited s) 0) (Ttcr3d.plan 0 128 1000) = Some 1015.
Proof. repeat split. Qed.

(** ** Stitching of reflected ray paths *)

Section StitchProps.
Context {T : Type}.
Variable sxyz_eqb : Sxyz.sxyz T -> Sxyz.sxyz T -> bool.


Lemma back_nonempty (p : (Ttcr3d.path T)) : p <> [] -> exists b, Ttcr3d.back p = Some b.
Proof.
  intros Hp. unfold Ttcr3d.back.
  destruct (nth_error p (Nat.pred (length p))) as [b|] eqn:E.
  - now exists b.
  - apply nth_error_None in E. destruct p; [congruence | simpl in E; lia].
Qed.

Lemma push_back_from_at (l1 : list (Ttcr3d.path T)) :
  forall (r : (Ttcr3d.path T)) (l2 : list (Ttcr3d.path T)) (v : (Ttcr3d.path T)) (from : nat),
    Ttcr3d.push_back_from (l1 ++ r :: l2) (length l1) v from =
    Some (l1 ++ (r ++ skipn from v) :: l2).
Proof.
  induction l1 as [|a l1 IH]; intros r l2 v from; simpl.
  - reflexivity.
  - now rewrite IH.
Qed.

(** The loop over the source-to-reflector paths, when none of them is
    empty: the first path ending at [pt1] is appended, with the rest
    of the receiver's path. *)
Lemma scan_stitched (rfl : list (Ttcr3d.path T)) :
  (forall p, In p rfl -> p <> []) ->
  forall (l1 : list (Ttcr3d.path T)) (acc : (Ttcr3d.path T)) (l2 : list (Ttcr3d.path T))
         (pt1 : Sxyz.sxyz T) (rest : (Ttcr3d.path T)),
    Ttcr3d.scan sxyz_eqb pt1 (pt1 :: rest) rfl (length l1) (l1 ++ acc :: l2) =
    Some (l1 ++ (acc ++ Spec.stitched sxyz_eqb rfl (pt1 :: rest)) :: l2).
Proof.
  induction rfl as [|p rfl IH]; intros Hne l1 acc l2 pt1 rest.
  - simpl. now rewrite app_nil_r.
  - destruct (back_nonempty p) as (b & Hb); [apply Hne; now left|].
    cbn [Ttcr3d.scan Spec.stitched find]. unfold Spec.ends_at at 1.
    rewrite Hb. destruct (sxyz_eqb pt1 b).
    + rewrite push_back_from_at, push_back_from_at.
      cbn [skipn]. now rewrite <- app_assoc.
    + rewrite IH by (intros q Hq; apply Hne; now right). reflexivity.
Qed.

Section OnePair.
Variables (rfl_r_data rfl2_r_data : list (list (list (Ttcr3d.path T)))) (nr ns : nat).
Variables (d1 d2 : list (list (Ttcr3d.path T))) (rfl d2s : list (Ttcr3d.path T)).
Hypothesis Hd1 : nth_error rfl_r_data nr = Some d1.
Hypothesis Hrfl : nth_error d1 ns = Some rfl.
Hypothesis Hd2 : nth_error rfl2_r_data nr = Some d2.
Hypothesis Hd2s : nth_error d2 ns = Some d2s.

Lemma stitch_rx_stitched (irx : nat) (l1 l2 : list (Ttcr3d.path T)) (rx : (Ttcr3d.path T)) :
  (forall p, In p rfl -> p <> []) ->
  nth_error d2s irx = Some rx -> rx <> [] -> length l1 = irx ->
  Ttcr3d.stitch_rx sxyz_eqb rfl_r_data rfl2_r_data nr ns irx (l1 ++ [] :: l2) =
  Some (l1 ++ Spec.stitched sxyz_eqb rfl rx :: l2).
Proof.
  intros Hne Hrx Hnil Hlen. unfold Ttcr3d.stitch_rx.
  rewrite Hd2, Hd2s, Hrx, Hd1, Hrfl.
  destruct rx as [|pt1 rest]; [congruence|].
  cbn [nth_error]. subst irx.
  now rewrite scan_stitched.
Qed.

Lemma stitch_loop_stitched (count : nat) :
  (forall p, In p rfl -> p <> []) ->
  forall (irx : nat) (done : list (Ttcr3d.path T)),
    length done = irx ->
    (forall k, (irx <= k < irx + count)%nat ->
               exists rx, nth_error d2s k = Some rx /\ rx <> []) ->
    Ttcr3d.stitch_loop sxyz_eqb rfl_r_data rfl2_r_data nr ns count irx
                       (done ++ repeat [] count) =
    Some (done ++ map (fun k => Spec.stitched sxyz_eqb rfl (nth k d2s []))
                      (seq irx count)).
Proof.
  intros Hne. induction count as [|count IH]; intros irx done Hlen Hrx.
  - reflexivity.
  - destruct (Hrx irx) as (rx & Ek & Hnil); [lia|].
    cbn [Ttcr3d.stitch_loop repeat seq map].
    rewrite (stitch_rx_stitched irx done (repeat [] count) rx Hne Ek Hnil Hlen).
    rewrite (nth_error_nth _ _ _ Ek).
    replace (done ++ Spec.stitched sxyz_eqb rfl rx :: repeat [] count)
      with ((done ++ [Spec.stitched sxyz_eqb rfl rx]) ++ repeat [] count)
      by (now rewrite <- app_assoc).
    rewrite IH.
    + now rewrite <- app_assoc.
    + rewrite length_app. simpl. lia.
    + intros k Hk. apply Hrx. lia.
Qed.

(** Under the non-emptiness precondition the stitching loop runs to
    its end and leaves in [r_tmp] the stitched path of each receiver. *)
Lemma stitch_stitched (nrcv : nat) :
  Spec.paths_nonempty nrcv rfl d2s ->
  Ttcr3d.stitch sxyz_eqb nrcv rfl_r_data rfl2_r_data nr ns =
  Some (map (fun k => Spec.stitched sxyz_eqb rfl (nth k d2s [])) (seq 0 nrcv)).
Proof.
  intros (Hrx & Hne). unfold Ttcr3d.stitch.
  apply (stitch_loop_stitched nrcv Hne 0%nat []); [reflexivity|].
  intros k Hk. apply Hrx. lia.
Qed.

End OnePair.

Lemma find_first_at {A : Type} (f : A -> bool) (l : list A) :
  forall (n : nat) (x : A),
    nth_error l n = Some x -> f x = true ->
    (forall j y, (j < n)%nat -> nth_error l j = Some y -> f y = false) ->
    find f l = Some x.
Proof.
  induction l as [|a l IH]; intros n x Hn Hx Hbefore.
  - destruct n; discriminate.
  - destruct n as [|n]; simpl in *.
    + injection Hn as ->. now rewrite Hx.
    + rewrite (Hbefore 0%nat a) by (simpl; auto; lia).
      apply (IH n x Hn Hx). intros j y Hj Hy. apply (Hbefore (S j) y); [lia|exact Hy].
Qed.

Lemma find_none_all {A : Type} (f : A -> bool) (l : list A) :
  (forall x, In x l -> f x = false) -> find f l = None.
Proof.
  induction l as [|a l IH]; intros Hall; simpl.
  - reflexivity.
  - rewrite (Hall a) by now left. apply IH. intros x Hx. apply Hall. now right.
Qed.

End StitchProps.

Lemma nth_error_map_seq {A : Type} (f : nat -> A) (n k : nat) :
  (k < n)%nat -> nth_error (map f (seq 0 n)) k = Some (f k).
Proof.
  intros Hk. rewrite nth_error_map, nth_error_seq.
  destruct (Nat.ltb_spec k n); [reflexivity | lia].
Qed.

(** C2: when the path of a receiver starts at the point where some
    source-to-reflector path ends, the stitched path of the receiver is
    a source-to-reflector path ending there (the first one, in the order
    of the loop) followed by the path of the receiver without its first
    point; so stitching [(0,0,0),(1,0,0),(2,0,0)] with
    [(2,0,0),(3,0,0)] gives [(0,0,0),(1,0,0),(2,0,0),(3,0,0)], for
    every equality test that holds of (2,0,0) with itself. *)
Theorem C2_stitched_path_junction_once :
    (forall (T : Type) (sxyz_eqb : Sxyz.sxyz T -> Sxyz.sxyz T -> bool)
            (nrcv : nat) (rfl_r_data rfl2_r_data : list (list (list (Ttcr3d.path T))))
            (nr ns : nat) (d1 d2 : list (list (Ttcr3d.path T)))
            (rfl d2s : list (Ttcr3d.path T))
            (irx : nat) (pt1 : Sxyz.sxyz T) (rest : Ttcr3d.path T),
        nth_error rfl_r_data nr = Some d1 -> nth_error d1 ns = Some rfl ->
        nth_error rfl2_r_data nr = Some d2 -> nth_error d2 ns = Some d2s ->
        Spec.paths_nonempty nrcv rfl d2s ->
        (irx < nrcv)%nat -> nth_error d2s irx = Some (pt1 :: rest) ->
        (exists p b, In p rfl /\ Ttcr3d.back p = Some b /\ sxyz_eqb pt1 b = true) ->
        exists r_tmp p b,
          Ttcr3d.stitch sxyz_eqb nrcv rfl_r_data rfl2_r_data nr ns = Some r_tmp /\
          In p rfl /\ Ttcr3d.back p = Some b /\ sxyz_eqb pt1 b = true /\
          nth_error r_tmp irx = Some (p ++ rest)) /\
    (forall (T : Type) (sxyz_eqb : Sxyz.sxyz T -> Sxyz.sxyz T -> bool)
            (nrcv : nat) (rfl_r_data rfl2_r_data : list (list (list (Ttcr3d.path T))))
            (nr ns : nat) (d1 d2 : list (list (Ttcr3d.path T)))
            (rfl d2s : list (Ttcr3d.path T))
            (irx n : nat) (pt1 b : Sxyz.sxyz T) (rest p : Ttcr3d.path T),
        nth_error rfl_r_data nr = Some d1 -> nth_error d1 ns = Some rfl ->
        nth_error rfl2_r_data nr = Some d2 -> nth_error d2 ns = Some d2s ->
        Spec.paths_nonempty nrcv rfl d2s ->
        (irx < nrcv)%nat -> nth_error d2s irx = Some (pt1 :: rest) ->
        nth_error rfl n = Some p -> Ttcr3d.back p = Some b ->
        sxyz_eqb pt1 b = true ->
        (forall j q bq, (j < n)%nat -> nth_error rfl j = Some q ->
                        Ttcr3d.back q = Some bq -> sxyz_eqb pt1 bq = false) ->
        exists r_tmp,
          Ttcr3d.stitch sxyz_eqb nrcv rfl_r_data rfl2_r_data nr ns = Some r_tmp /\
          nth_error r_tmp irx = Some (p ++ rest)) /\
    (forall (T1 : Type) (ST : Scalar T1)
            (sxyz_eqb : Sxyz.sxyz T1 -> Sxyz.sxyz T1 -> bool),
        let P := fun a : Z => Sxyz.mk (s_of_T2 a) (s_of_T2 0) (s_of_T2 0) in
        sxyz_eqb (P 2) (P 2) = true ->
        Ttcr3d.stitch sxyz_eqb 1 [[[[P 0; P 1; P 2]]]] [[[[P 2; P 3]]]] 0 0 =
        Some [[P 0; P 1; P 2; P 3]]).
Proof.
  split; [|split].
  - intros T sxyz_eqb nrcv rfl_r_data rfl2_r_data nr ns d1 d2 rfl d2s irx pt1 rest
           Hd1 Hrfl Hd2 Hd2s Hne Hirx Hrx (p & b & Hin & Hb & Heq).
    rewrite (stitch_stitched sxyz_eqb rfl_r_data rfl2_r_data nr ns d1 d2 rfl d2s
               Hd1 Hrfl Hd2 Hd2s nrcv Hne).
    destruct (find (Spec.ends_at sxyz_eqb pt1) rfl) as [p0|] eqn:Ef.
    + destruct (find_some _ _ Ef) as (Hin0 & He0).
      unfold Spec.ends_at in He0.
      destruct (Ttcr3d.back p0) as [b0|] eqn:Eb0; [|discriminate].
      eexists. exists p0, b0. split; [reflexivity|].
      repeat split; try assumption.
      rewrite nth_error_map_seq by exact Hirx.
      rewrite (nth_error_nth _ _ _ Hrx). cbn [Spec.stitched].
      now rewrite Ef.
    + exfalso. pose proof (find_none _ _ Ef p Hin) as Hp.
      unfold Spec.ends_at in Hp. rewrite Hb in Hp. congruence.
  - intros T sxyz_eqb nrcv rfl_r_data rfl2_r_data nr ns d1 d2 rfl d2s irx n pt1 b rest p
           Hd1 Hrfl Hd2 Hd2s Hne Hirx Hrx Hn Hb Heq Hfirst.
    rewrite (stitch_stitched sxyz_eqb rfl_r_data rfl2_r_data nr ns d1 d2 rfl d2s
               Hd1 Hrfl Hd2 Hd2s nrcv Hne).
    eexists. split; [reflexivity|].
    rewrite nth_error_map_seq by exact Hirx.
    rewrite (nth_error_nth _ _ _ Hrx). cbn [Spec.stitched].
    rewrite (find_first_at (Spec.ends_at sxyz_eqb pt1) rfl n p Hn).
    + reflexivity.
    + unfold Spec.ends_at. now rewrite Hb.
    + intros j q Hj Hq. unfold Spec.ends_at.
      destruct (Ttcr3d.back q) as [bq|] eqn:Eq; [|reflexivity].
      now apply (Hfirst j q bq).
  - intros T1 ST sxyz_eqb P HP.
    unfold Ttcr3d.stitch. cbn. rewrite HP. reflexivity.
Qed.

Lemma examples_paths_nonempty :
  Spec.paths_nonempty 2 Examples.rfl_paths Examples.rcv_paths.
Proof.
  split.
  - intros [|[|irx]] Hirx; [| |lia]; eexists; (split; [reflexivity | discriminate]).
  - intros p [<- | [<- | []]]; discriminate.
Qed.

Lemma examples_unmatched_nonempty :
  Spec.paths_nonempty 2 Examples.rfl_paths Examples.rcv_paths_unmatched.
Proof.
  split.
  - intros [|[|irx]] Hirx; [| |lia]; eexists; (split; [reflexivity | discriminate]).
  - intros p [<- | [<- | []]]; discriminate.
Qed.

Lemma C2_stitched_path_junction_once_witness :
  (exists r_tmp,
      Ttcr3d.stitch Examples.pt_eqb 2 [[Examples.rfl_paths]] [[Examples.rcv_paths]] 0 0 =
      Some r_tmp /\
      nth_error r_tmp 1 =
      Some [Examples.pt 0 0 0; Examples.pt 5 0 0; Examples.pt 6 0 0]) /\
  Ttcr3d.stitch Examples.dpt_eqb 1
                [[[[Examples.dpt 0 0 0; Examples.dpt 1 0 0; Examples.dpt 2 0 0]]]]
                [[[[Examples.dpt 2 0 0; Examples.dpt 3 0 0]]]] 0 0 =
  Some [[Examples.dpt 0 0 0; Examples.dpt 1 0 0; Examples.dpt 2 0 0;
         Examples.dpt 3 0 0]].
Proof.
  destruct C2_stitched_path_junction_once as (_ & Hgen & Hex).
  split.
  - apply (Hgen Q Examples.pt_eqb 2%nat [[Examples.rfl_paths]] [[Examples.rcv_paths]]
                0%nat 0%nat [Examples.rfl_paths] [Examples.rcv_paths]
                Examples.rfl_paths Examples.rcv_paths 1%nat 1%nat
                (Examples.pt 5 0 0) (Examples.pt 5 0 0) [Examples.pt 6 0 0]
                [Examples.pt 0 0 0; Examples.pt 5 0 0]).
    + reflexivity.
    + reflexivity.
    + reflexivity.
    + reflexivity.
    + exact examples_paths_nonempty.
    + lia.
    + reflexivity.
    + reflexivity.
    + reflexivity.
    + reflexivity.
    + intros j q bq Hj Hq Hb. destruct j as [|j]; [|lia].
      simpl in Hq. injection Hq as <-.
      vm_compute in Hb. injection Hb as <-. reflexivity.
  - exact (Hex float Double_Scalar Examples.dpt_eqb eq_refl).
Defined.

Section StitchFailures.
Context {T : Type}.
Variable sxyz_eqb : Sxyz.sxyz T -> Sxyz.sxyz T -> bool.

(** An empty source-to-reflector path that the scan reaches stops it. *)
Lemma scan_empty_path (pt1 : Sxyz.sxyz T) (rx : Ttcr3d.path T)
      (rfl : list (Ttcr3d.path T)) :
  forall (n : nat),
    nth_error rfl n = Some [] ->
    (forall j q, (j < n)%nat -> nth_error rfl j = Some q ->
                 Spec.ends_at sxyz_eqb pt1 q = false) ->
    forall (irx : nat) (r_tmp : list (Ttcr3d.path T)),
      Ttcr3d.scan sxyz_eqb pt1 rx rfl irx r_tmp = None.
Proof.
  induction rfl as [|p rfl IH]; intros n Hn Hbefore irx r_tmp.
  - destruct n; discriminate.
  - destruct n as [|n]; simpl in Hn.
    + injection Hn as ->. reflexivity.
    + cbn [Ttcr3d.scan].
      pose proof (Hbefore 0%nat p (Nat.lt_0_succ n) eq_refl) as Hp.
      unfold Spec.ends_at in Hp.
      destruct (Ttcr3d.back p) as [b|]; [|reflexivity].
      rewrite Hp. apply (IH n Hn).
      intros j q Hj Hq. apply (Hbefore (S j) q); [lia | exact Hq].
Qed.

(** An iteration that cannot succeed stops the loop over the receivers. *)
Lemma stitch_loop_fails (rfl_r_data rfl2_r_data : list (list (list (Ttcr3d.path T))))
      (nr ns irx : nat) :
  (forall r_tmp, Ttcr3d.stitch_rx sxyz_eqb rfl_r_data rfl2_r_data nr ns irx r_tmp = None) ->
  forall (count irx0 : nat) (r_tmp : list (Ttcr3d.path T)),
    (irx0 <= irx < irx0 + count)%nat ->
    Ttcr3d.stitch_loop sxyz_eqb rfl_r_data rfl2_r_data nr ns count irx0 r_tmp = None.
Proof.
  intros Hfail. induction count as [|count IH]; intros irx0 r_tmp Hk; [lia|].
  cbn [Ttcr3d.stitch_loop].
  destruct (Nat.eq_dec irx0 irx) as [->|Hne].
  - now rewrite Hfail.
  - destruct (Ttcr3d.stitch_rx _ _ _ _ _ _ _); [|reflexivity].
    apply IH. lia.
Qed.

Lemma stitch_length (nrcv : nat)
      (rfl_r_data rfl2_r_data : list (list (list (Ttcr3d.path T)))) (nr ns : nat)
      (d1 d2 : list (list (Ttcr3d.path T))) (rfl d2s : list (Ttcr3d.path T)) :
  nth_error rfl_r_data nr = Some d1 -> nth_error d1 ns = Some rfl ->
  nth_error rfl2_r_data nr = Some d2 -> nth_error d2 ns = Some d2s ->
  Spec.paths_nonempty nrcv rfl d2s ->
  exists r_tmp,
    Ttcr3d.stitch sxyz_eqb nrcv rfl_r_data rfl2_r_data nr ns = Some r_tmp /\
    length r_tmp = nrcv.
Proof.
  intros Hd1 Hrfl Hd2 Hd2s Hne.
  rewrite (stitch_stitched sxyz_eqb rfl_r_data rfl2_r_data nr ns d1 d2 rfl d2s
             Hd1 Hrfl Hd2 Hd2s nrcv Hne).
  eexists. split; [reflexivity|]. now rewrite length_map, length_seq.
Qed.

Lemma save_reflected_defined (prefix : string) (nrcv : nat)
      (rfl_r_data rfl2_r_data : list (list (list (Ttcr3d.path T)))) (ns : nat) :
  forall (count nr0 : nat),
    (forall nr, (nr0 <= nr < nr0 + count)%nat ->
                exists d1 d2 rfl d2s,
                  nth_error rfl_r_data nr = Some d1 /\ nth_error d1 ns = Some rfl /\
                  nth_error rfl2_r_data nr = Some d2 /\ nth_error d2 ns = Some d2s /\
                  Spec.paths_nonempty nrcv rfl d2s) ->
    exists outs,
      Ttcr3d.save_reflected sxyz_eqb prefix nrcv rfl_r_data rfl2_r_data ns count nr0 =
      Some outs /\ length outs = count.
Proof.
  induction count as [|count IH]; intros nr0 Hall.
  - exists []. split; reflexivity.
  - destruct (Hall nr0) as (d1 & d2 & rfl & d2s & Hd1 & Hrfl & Hd2 & Hd2s & Hne); [lia|].
    destruct (stitch_length nrcv rfl_r_data rfl2_r_data nr0 ns d1 d2 rfl d2s
                Hd1 Hrfl Hd2 Hd2s Hne) as (r_tmp & Hs & _).
    destruct (IH (S nr0)) as (outs & Ho & Hl); [intros nr Hnr; apply Hall; lia|].
    cbn [Ttcr3d.save_reflected]. rewrite Hs, Ho.
    eexists. split; [reflexivity|]. simpl. now rewrite Hl.
Qed.

End StitchFailures.

(** C9: for a reflector and a source, when every receiver has a
    non-empty reflector-to-receiver path and every source-to-reflector
    path is non-empty, every access of the stitching loop is in range:
    the loop ends with one stitched path per receiver, and so does the
    loop over all the reflectors. The first point of the path of each
    receiver is read in any case: an empty path there makes an access
    fail, as does an empty source-to-reflector path that the scan of a
    receiver reaches. *)
Theorem C9_stitching_accesses_in_range :
  forall (T : Type) (sxyz_eqb : Sxyz.sxyz T -> Sxyz.sxyz T -> bool) (nrcv : nat)
         (rfl_r_data rfl2_r_data : list (list (list (Ttcr3d.path T)))) (ns : nat),
    (forall (nr : nat) (d1 d2 : list (list (Ttcr3d.path T)))
            (rfl d2s : list (Ttcr3d.path T)),
        nth_error rfl_r_data nr = Some d1 -> nth_error d1 ns = Some rfl ->
        nth_error rfl2_r_data nr = Some d2 -> nth_error d2 ns = Some d2s ->
        Spec.paths_nonempty nrcv rfl d2s ->
        exists r_tmp,
          Ttcr3d.stitch sxyz_eqb nrcv rfl_r_data rfl2_r_data nr ns = Some r_tmp /\
          length r_tmp = nrcv) /\
    (forall (prefix : string) (nrefl : nat),
        (forall nr, (nr < nrefl)%nat ->
                    exists d1 d2 rfl d2s,
                      nth_error rfl_r_data nr = Some d1 /\ nth_error d1 ns = Some rfl /\
                      nth_error rfl2_r_data nr = Some d2 /\ nth_error d2 ns = Some d2s /\
                      Spec.paths_nonempty nrcv rfl d2s) ->
        exists outs,
          Ttcr3d.save_reflected sxyz_eqb prefix nrcv rfl_r_data rfl2_r_data ns nrefl 0 =
          Some outs /\ length outs = nrefl) /\
    (forall (nr : nat) (d2 : list (list (Ttcr3d.path T))) (d2s : list (Ttcr3d.path T))
            (irx : nat),
        nth_error rfl2_r_data nr = Some d2 -> nth_error d2 ns = Some d2s ->
        (irx < nrcv)%nat -> nth_error d2s irx = Some [] ->
        Ttcr3d.stitch sxyz_eqb nrcv rfl_r_data rfl2_r_data nr ns = None) /\
    (forall (nr : nat) (d1 d2 : list (list (Ttcr3d.path T)))
            (rfl d2s : list (Ttcr3d.path T)) (irx n : nat)
            (pt1 : Sxyz.sxyz T) (rest : Ttcr3d.path T),
        nth_error rfl_r_data nr = Some d1 -> nth_error d1 ns = Some rfl ->
        nth_error rfl2_r_data nr = Some d2 -> nth_error d2 ns = Some d2s ->
        (irx < nrcv)%nat -> nth_error d2s irx = Some (pt1 :: rest) ->
        nth_error rfl n = Some [] ->
        (forall j q, (j < n)%nat -> nth_error rfl j = Some q ->
                     Spec.ends_at sxyz_eqb pt1 q = false) ->
        Ttcr3d.stitch sxyz_eqb nrcv rfl_r_data rfl2_r_data nr ns = None).
Proof.
  intros T sxyz_eqb nrcv rfl_r_data rfl2_r_data ns.
  split; [|split; [|split]].
  - intros nr d1 d2 rfl d2s. apply stitch_length.
  - intros prefix nrefl Hall.
    apply save_reflected_defined. intros nr Hnr. apply Hall. lia.
  - intros nr d2 d2s irx Hd2 Hd2s Hirx Hrx. unfold Ttcr3d.stitch.
    apply (stitch_loop_fails sxyz_eqb rfl_r_data rfl2_r_data nr ns irx); [|lia].
    intros r_tmp. unfold Ttcr3d.stitch_rx. now rewrite Hd2, Hd2s, Hrx.
  - intros nr d1 d2 rfl d2s irx n pt1 rest Hd1 Hrfl Hd2 Hd2s Hirx Hrx Hn Hbefore.
    unfold Ttcr3d.stitch.
    apply (stitch_loop_fails sxyz_eqb rfl_r_data rfl2_r_data nr ns irx); [|lia].
    intros r_tmp. unfold Ttcr3d.stitch_rx.
    rewrite Hd2, Hd2s, Hrx, Hd1, Hrfl. cbn [nth_error].
    now apply (scan_empty_path sxyz_eqb pt1 (pt1 :: rest) rfl n).
Qed.

Lemma C9_stitching_accesses_in_range_witness :
  (exists r_tmp,
      Ttcr3d.stitch Examples.pt_eqb 2 [[Examples.rfl_paths]] [[Examples.rcv_paths]] 0 0 =
      Some r_tmp /\ length r_tmp = 2%nat) /\
  Ttcr3d.stitch Examples.pt_eqb 2 [[Examples.rfl_paths]]
                [[[[Examples.pt 2 0 0; Examples.pt 3 0 0]; []]]] 0 0 = None.
Proof.
  destruct (C9_stitching_accesses_in_range Q Examples.pt_eqb 2 [[Examples.rfl_paths]]
              [[Examples.rcv_paths]] 0) as (Hdef & _).
  destruct (C9_stitching_accesses_in_range Q Examples.pt_eqb 2 [[Examples.rfl_paths]]
              [[[[Examples.pt 2 0 0; Examples.pt 3 0 0]; []]]] 0) as (_ & _ & Hrx & _).
  split.
  - apply (Hdef 0%nat [Examples.rfl_paths] [Examples.rcv_paths]
                Examples.rfl_paths Examples.rcv_paths).
    + reflexivity.
    + reflexivity.
    + reflexivity.
    + reflexivity.
    + exact examples_paths_nonempty.
  - apply (Hrx 0%nat [[[Examples.pt 2 0 0; Examples.pt 3 0 0]; []]]
               [[Examples.pt 2 0 0; Examples.pt 3 0 0]; []] 1%nat).
    + reflexivity.
    + reflexivity.
    + lia.
    + reflexivity.
Defined.

(** C10: when the path of a receiver starts at a point where no
    source-to-reflector path ends, the stitching loop still ends, the
    stitched path of that receiver is empty, every receiver has its
    stitched path in [r_tmp], and [r_tmp] is handed to [saveRayPaths]
    under the file name of the reflector. *)
Theorem C10_unmatched_receiver_gets_empty_path :
  forall (T : Type) (sxyz_eqb : Sxyz.sxyz T -> Sxyz.sxyz T -> bool) (nrcv : nat)
         (rfl_r_data rfl2_r_data : list (list (list (Ttcr3d.path T)))) (nr ns : nat)
         (d1 d2 : list (list (Ttcr3d.path T))) (rfl d2s : list (Ttcr3d.path T))
         (irx : nat) (pt1 : Sxyz.sxyz T) (rest : Ttcr3d.path T) (prefix : string),
    nth_error rfl_r_data nr = Some d1 -> nth_error d1 ns = Some rfl ->
    nth_error rfl2_r_data nr = Some d2 -> nth_error d2 ns = Some d2s ->
    Spec.paths_nonempty nrcv rfl d2s ->
    (irx < nrcv)%nat -> nth_error d2s irx = Some (pt1 :: rest) ->
    (forall p b, In p rfl -> Ttcr3d.back p = Some b -> sxyz_eqb pt1 b = false) ->
    exists r_tmp,
      Ttcr3d.stitch sxyz_eqb nrcv rfl_r_data rfl2_r_data nr ns = Some r_tmp /\
      length r_tmp = nrcv /\
      nth_error r_tmp irx = Some [] /\
      (forall j, (j < nrcv)%nat ->
                 nth_error r_tmp j = Some (Spec.stitched sxyz_eqb rfl (nth j d2s []))) /\
      Ttcr3d.save_reflected sxyz_eqb prefix nrcv rfl_r_data rfl2_r_data ns 1 nr =
      Some [Ttcr3d.SaveRayPaths
              (prefix ++ "_rp" ++ Ttcr3d.to_string (nr + 1) ++ ".vtp")%string r_tmp].
Proof.
  intros T sxyz_eqb nrcv rfl_r_data rfl2_r_data nr ns d1 d2 rfl d2s irx pt1 rest prefix
         Hd1 Hrfl Hd2 Hd2s Hne Hirx Hrx Hnomatch.
  pose proof (stitch_stitched sxyz_eqb rfl_r_data rfl2_r_data nr ns d1 d2 rfl d2s
                Hd1 Hrfl Hd2 Hd2s nrcv Hne) as Hs.
  eexists. split; [exact Hs|].
  split; [now rewrite length_map, length_seq|].
  split; [|split].
  - rewrite nth_error_map_seq by exact Hirx.
    rewrite (nth_error_nth _ _ _ Hrx). cbn [Spec.stitched].
    rewrite find_none_all; [reflexivity|].
    intros p Hp. unfold Spec.ends_at.
    destruct (Ttcr3d.back p) as [b|] eqn:Eb; [|reflexivity].
    now apply (Hnomatch p b).
  - intros j Hj. now rewrite nth_error_map_seq by exact Hj.
  - cbn [Ttcr3d.save_reflected]. rewrite Hs. reflexivity.
Qed.

Lemma C10_unmatched_receiver_gets_empty_path_witness :
  exists r_tmp,
    Ttcr3d.stitch Examples.pt_eqb 2 [[Examples.rfl_paths]]
                  [[Examples.rcv_paths_unmatched]] 0 0 = Some r_tmp /\
    nth_error r_tmp 1 = Some [] /\
    nth_error r_tmp 0 =
    Some [Examples.pt 0 0 0; Examples.pt 1 0 0; Examples.pt 2 0 0; Examples.pt 3 0 0] /\
    Ttcr3d.save_reflected Examples.pt_eqb "out" 2 [[Examples.rfl_paths]]
                          [[Examples.rcv_paths_unmatched]] 0 1 0 =
    Some [Ttcr3d.SaveRayPaths "out_rp1.vtp" r_tmp].
Proof.
  destruct (C10_unmatched_receiver_gets_empty_path Q Examples.pt_eqb 2
              [[Examples.rfl_paths]] [[Examples.rcv_paths_unmatched]] 0 0
              [Examples.rfl_paths] [Examples.rcv_paths_unmatched]
              Examples.rfl_paths Examples.rcv_paths_unmatched
              1 (Examples.pt 7 0 0) [Examples.pt 6 0 0] "out"%string)
    as (r_tmp & Hs & _ & Hempty & Hall & Hsave).
  - reflexivity.
  - reflexivity.
  - reflexivity.
  - reflexivity.
  - exact examples_unmatched_nonempty.
  - lia.
  - reflexivity.
  - intros p b [<- | [<- | []]] Hb; vm_compute in Hb; injection Hb as <-; reflexivity.
  - exists r_tmp. split; [exact Hs|]. split; [exact Hempty|]. split.
    + rewrite (Hall 0%nat) by lia. reflexivity.
    + exact Hsave.
Defined.

(** ** The global ray-path file *)

Section FormatProps.
Context {T : Type}.

(** A loop that appends the encoding of each element in turn appends
    the encodings of all of them. *)
Lemma fold_left_appends {A : Type} (w : list (Ttcr3d.item T) -> A -> list (Ttcr3d.item T))
      (enc : A -> list (Ttcr3d.item T)) :
  (forall f a, w f a = f ++ enc a) ->
  forall (l : list A) (f : list (Ttcr3d.item T)),
    fold_left w l f = f ++ flat_map enc l.
Proof.
  intros Hw. induction l as [|a l IH]; intros f; simpl.
  - now rewrite app_nil_r.
  - now rewrite IH, Hw, <- app_assoc.
Qed.

Lemma write_rays_counted (rays : list (Ttcr3d.path T)) (f : list (Ttcr3d.item T)) :
  Ttcr3d.write_rays rays (Ttcr3d.write_size (length rays) f) =
  f ++ Spec.counted Spec.enc_path rays.
Proof.
  unfold Ttcr3d.write_rays.
  rewrite (fold_left_appends _ Spec.enc_path).
  - unfold Ttcr3d.write_size, Spec.counted. now rewrite <- app_assoc.
  - intros g p. unfold Ttcr3d.write_points, Ttcr3d.write_size, Spec.enc_path.
    now rewrite <- app_assoc.
Qed.

Lemma write_sources_counted (d : list (list (Ttcr3d.path T))) (f : list (Ttcr3d.item T)) :
  Ttcr3d.write_sources d (Ttcr3d.write_size (length d) f) =
  f ++ Spec.counted (Spec.counted Spec.enc_path) d.
Proof.
  unfold Ttcr3d.write_sources.
  rewrite (fold_left_appends _ (Spec.counted Spec.enc_path)).
  - unfold Ttcr3d.write_size, Spec.counted at 3. now rewrite <- app_assoc.
  - intros g rays. apply write_rays_counted.
Qed.

Lemma write_reflectors_counted (d : list (list (list (Ttcr3d.path T))))
      (f : list (Ttcr3d.item T)) :
  Ttcr3d.write_reflectors d (Ttcr3d.write_size (length d) f) =
  f ++ Spec.counted (Spec.counted (Spec.counted Spec.enc_path)) d.
Proof.
  unfold Ttcr3d.write_reflectors.
  rewrite (fold_left_appends _ (Spec.counted (Spec.counted Spec.enc_path))).
  - unfold Ttcr3d.write_size, Spec.counted at 4. now rewrite <- app_assoc.
  - intros g s. apply write_sources_counted.
Qed.

Lemma write_global_rp_bin (r_data : list (list (Ttcr3d.path T)))
      (rfl_r_data rfl2_r_data : list (list (list (Ttcr3d.path T)))) :
  Ttcr3d.write_global r_data rfl_r_data rfl2_r_data =
  Spec.rp_bin r_data rfl_r_data rfl2_r_data.
Proof.
  unfold Ttcr3d.write_global, Spec.rp_bin.
  rewrite write_sources_counted, write_reflectors_counted, write_reflectors_counted.
  now rewrite <- app_assoc.
Qed.

End FormatProps.

(** C6, as amended: when ray paths are to be saved, there is more than
    one source, there is at least one reflector and the file can be
    opened, one binary file [basename_rp.bin] is written; it holds, each
    nesting level preceded by its element count, the direct ray paths of
    all sources, then the source-to-reflector paths and then the
    reflector-to-receiver paths of all reflectors and sources, each path
    as its point count followed by its points. Without a reflector no
    such file is written. *)
Theorem C6_global_raypath_file :
  forall (T : Type) (basename : string) (src_size reflectors_size : nat)
         (r_data : list (list (Ttcr3d.path T)))
         (rfl_r_data rfl2_r_data : list (list (list (Ttcr3d.path T)))),
    (1 < src_size)%nat ->
    ((0 < reflectors_size)%nat ->
     Ttcr3d.save_rp_bin true basename src_size reflectors_size true
                        r_data rfl_r_data rfl2_r_data =
     Ttcr3d.Completed
       [Ttcr3d.BinaryFile (basename ++ "_rp.bin")%string
                          (Spec.rp_bin r_data rfl_r_data rfl2_r_data)]) /\
    (reflectors_size = 0%nat ->
     forall can_open : bool,
       Ttcr3d.save_rp_bin true basename src_size reflectors_size can_open
                          r_data rfl_r_data rfl2_r_data =
       Ttcr3d.Completed []).
Proof.
  intros T basename src_size reflectors_size r_data rfl_r_data rfl2_r_data Hsrc.
  unfold Ttcr3d.save_rp_bin.
  destruct (Nat.eqb_spec src_size 1) as [E|_]; [lia|].
  split.
  - intros Hr. destruct (Nat.ltb_spec 0 reflectors_size) as [_|H]; [|lia].
    cbn [andb]. now rewrite write_global_rp_bin.
  - intros -> can_open. reflexivity.
Qed.

Lemma C6_global_raypath_file_witness :
  Ttcr3d.save_rp_bin true "out" 2 1 true Examples.direct_paths
                     [[Examples.rfl_paths; []]] [[Examples.rcv_paths; []]] =
  Ttcr3d.Completed
    [Ttcr3d.BinaryFile "out_rp.bin"
       (Spec.rp_bin Examples.direct_paths
                    [[Examples.rfl_paths; []]] [[Examples.rcv_paths; []]])].
Proof.
  apply (proj1 (C6_global_raypath_file Q "out"%string 2%nat 1%nat Examples.direct_paths
                  [[Examples.rfl_paths; []]] [[Examples.rcv_paths; []]]
                  (Nat.lt_succ_diag_r 1))).
  exact Nat.lt_0_1.
Defined.

(** C6, as stated, fails: with two sources, ray paths requested and no
    reflector, no binary file is written. *)
Lemma C6_counterexample :
  Ttcr3d.save_rp_bin true "out" 2 0 true Examples.direct_paths [] [] =
  Ttcr3d.Completed [].
Proof. reflexivity. Qed.

(** ** Cell numbers in [double] at ordinary magnitudes *)

(** On the grid of 2 x 2 x 2 cells of size 2 with origin 0 and with
    [small = 1e-5], the upper corner is in the last cell. *)
Example getCellNo_double_corner :
  Grid3Dr.getCellNo Examples.small_double Examples.grid2_double
                    (Examples.dpt 4 4 4) = Some 7.
Proof. vm_compute. reflexivity. Qed.

(** On the same grid, a point inside the grid and more than [small]
    below the maximum of the x axis passes [check_pts] and gets the cell
    number 2 along x: [small] is compared with a distance and added to a
    number of cells, and here a cell is 2 units wide. The index returned
    is that of the cell (0, 1, 0). *)
Example getCellNo_double_below_max :
  s_ltb (s_sub (Grid3Dr.xmax Examples.grid2_double) 0x1.ffff583a53b8ep+1%float)
        Examples.small_double = false /\
  Grid3Dr.check_pts Examples.grid2_double
                    [Examples.dpt 0x1.ffff583a53b8ep+1 0 0] = (0, []) /\
  Spec.cell_x Examples.small_double Examples.grid2_double
              0x1.ffff583a53b8ep+1%float = Some 2 /\
  Grid3Dr.getCellNo Examples.small_double Examples.grid2_double
                    (Examples.dpt 0x1.ffff583a53b8ep+1 0 0) =
  Grid3Dr.getCellNo Examples.small_double Examples.grid2_double
                    (Examples.dpt 0 2 0).
Proof. repeat split; vm_compute; reflexivity. Qed.

(** * Further properties of the code *)

(** ** Cells and bounds *)

Lemma mixed_radix_unique (a b a' b' n : Z) :
  0 <= b < n -> 0 <= b' < n -> a * n + b = a' * n + b' -> a = a' /\ b = b'.
Proof.
  intros Hb Hb' E.
  assert (a = a') by nia. subst a'. split; [reflexivity | lia].
Qed.

Section Snapped.
Context {T1 : Type} {ST : Scalar T1}.
Variable small : T1.

(** Moving a coordinate a second time changes nothing: the cell number
    of a coordinate is that of the coordinate once moved. *)
Lemma axis_cell_snap (minv maxv d c : T1) :
  Spec.axis_cell small minv maxv d (Spec.snap small maxv d c) =
  Spec.axis_cell small minv maxv d c.
Proof.
  unfold Spec.axis_cell. f_equal.
  assert (E : Spec.snap small maxv d (Spec.snap small maxv d c) =
              Spec.snap small maxv d c).
  { unfold Spec.snap at 2 3. destruct (s_ltb (s_sub maxv c) small) eqn:E.
    - unfold Spec.snap.
      destruct (s_ltb (s_sub maxv (s_sub maxv (s_mul s_half d))) small); reflexivity.
    - unfold Spec.snap. now rewrite E. }
  now rewrite E.
Qed.

Lemma axis_cell_beyond (minv maxv d c : T1) :
  s_ltb (s_sub maxv c) small = true ->
  Spec.axis_cell small minv maxv d c =
  Spec.axis_cell small minv maxv d (s_sub maxv (s_mul s_half d)).
Proof.
  intros H. rewrite <- (axis_cell_snap minv maxv d c).
  unfold Spec.snap at 1. now rewrite H.
Qed.

End Snapped.

(** X2: for every real type, the points whose three coordinates are
    greater than [max - small], however far beyond the maxima, are not
    told apart: each gets what [getCellNo] gives for the point
    [(xmax - .5*dx, ymax - .5*dy, zmax - .5*dz)], the same index or the
    same undefined conversion. *)
Theorem getCellNo_beyond_max_same_cell :
  forall (T1 : Type) (ST : Scalar T1) (small : T1) (g : Grid3Dr.t T1)
         (p : Sxyz.sxyz T1),
    s_ltb (s_sub (Grid3Dr.xmax g) (Sxyz.x p)) small = true ->
    s_ltb (s_sub (Grid3Dr.ymax g) (Sxyz.y p)) small = true ->
    s_ltb (s_sub (Grid3Dr.zmax g) (Sxyz.z p)) small = true ->
    Grid3Dr.getCellNo small g p =
    Grid3Dr.getCellNo small g
      (Sxyz.mk (s_sub (Grid3Dr.xmax g) (s_mul s_half (Grid3Dr.dx g)))
               (s_sub (Grid3Dr.ymax g) (s_mul s_half (Grid3Dr.dy g)))
               (s_sub (Grid3Dr.zmax g) (s_mul s_half (Grid3Dr.dz g)))).
Proof.
  intros T1 ST small g p Hx Hy Hz.
  rewrite !getCellNo_cellIndex. unfold Spec.cellIndex, Spec.cell_x, Spec.cell_y, Spec.cell_z.
  cbn [Sxyz.x Sxyz.y Sxyz.z].
  rewrite (axis_cell_beyond small _ _ _ _ Hx).
  rewrite (axis_cell_beyond small _ _ _ _ Hy).
  rewrite (axis_cell_beyond small _ _ _ _ Hz).
  reflexivity.
Qed.

Lemma getCellNo_beyond_max_same_cell_witness :
  Grid3Dr.getCellNo Examples.small_double Examples.grid2_double
                    (Examples.dpt 100 4 5) =
  Grid3Dr.getCellNo Examples.small_double Examples.grid2_double
                    (Examples.dpt 3 3 3).
Proof.
  apply (getCellNo_beyond_max_same_cell float Double_Scalar Examples.small_double
           Examples.grid2_double (Examples.dpt 100 4 5));
    vm_compute; reflexivity.
Defined.

(** X5: when the number of cells fits in [T2], two points whose cell
    numbers are below the cell counts get the same index from
    [getCellNo] only if they have the same cell numbers on the three
    axes: distinct cells have distinct indices. *)
Theorem getCellNo_injective_on_cells :
  forall (T1 : Type) (ST : Scalar T1) (small : T1) (g : Grid3Dr.t T1)
         (p q : Sxyz.sxyz T1) (i j k i' j' k' : Z),
    Grid3Dr.ncx g * Grid3Dr.ncy g * Grid3Dr.ncz g < U32.modulus ->
    Spec.cell_x small g (Sxyz.x p) = Some i ->
    Spec.cell_y small g (Sxyz.y p) = Some j ->
    Spec.cell_z small g (Sxyz.z p) = Some k ->
    Spec.cell_x small g (Sxyz.x q) = Some i' ->
    Spec.cell_y small g (Sxyz.y q) = Some j' ->
    Spec.cell_z small g (Sxyz.z q) = Some k' ->
    i < Grid3Dr.ncx g -> j < Grid3Dr.ncy g -> k < Grid3Dr.ncz g ->
    i' < Grid3Dr.ncx g -> j' < Grid3Dr.ncy g -> k' < Grid3Dr.ncz g ->
    Grid3Dr.getCellNo small g p = Grid3Dr.getCellNo small g q ->
    Spec.cell_x small g (Sxyz.x p) = Spec.cell_x small g (Sxyz.x q) /\
    Spec.cell_y small g (Sxyz.y p) = Spec.cell_y small g (Sxyz.y q) /\
    Spec.cell_z small g (Sxyz.z p) = Spec.cell_z small g (Sxyz.z q).
Proof.
  intros T1 ST small g p q i j k i' j' k' Hn Pi Pj Pk Qi Qj Qk Bi Bj Bk Bi' Bj' Bk' E.
  pose proof (axis_cell_range small _ _ _ _ _ Pi) as Ri.
  pose proof (axis_cell_range small _ _ _ _ _ Pj) as Rj.
  pose proof (axis_cell_range small _ _ _ _ _ Pk) as Rk.
  pose proof (axis_cell_range small _ _ _ _ _ Qi) as Ri'.
  pose proof (axis_cell_range small _ _ _ _ _ Qj) as Rj'.
  pose proof (axis_cell_range small _ _ _ _ _ Qk) as Rk'.
  rewrite !getCellNo_cellIndex in E. unfold Spec.cellIndex in E.
  rewrite Pi, Pj, Pk, Qi, Qj, Qk in E |- *. injection E as E.
  rewrite (index_no_overflow i j k _ _ (Grid3Dr.ncz g)) in E by (try lia; exact Hn).
  rewrite (index_no_overflow i' j' k' _ _ (Grid3Dr.ncz g)) in E by (try lia; exact Hn).
  set (cx := Grid3Dr.ncx g) in *. set (cy := Grid3Dr.ncy g) in *.
  destruct (mixed_radix_unique (j + k * cy) i (j' + k' * cy) i' cx) as (E1 & Ei);
    [lia | lia | lia |].
  destruct (mixed_radix_unique k j k' j' cy) as (Ek & Ej); [lia | lia | lia |].
  subst i' j' k'. auto.
Qed.

Lemma getCellNo_injective_on_cells_witness :
  Spec.cell_x Examples.small_double Examples.grid2_double 3%float =
  Spec.cell_x Examples.small_double Examples.grid2_double 2.5%float /\
  Spec.cell_y Examples.small_double Examples.grid2_double 1%float =
  Spec.cell_y Examples.small_double Examples.grid2_double 0.5%float /\
  Spec.cell_z Examples.small_double Examples.grid2_double 2%float =
  Spec.cell_z Examples.small_double Examples.grid2_double 3%float.
Proof.
  apply (getCellNo_injective_on_cells float Double_Scalar Examples.small_double
           Examples.grid2_double (Examples.dpt 3 1 2) (Examples.dpt 2.5 0.5 3)
           1 0 1 1 0 1);
    vm_compute; reflexivity.
Defined.

Lemma ltb_nan_l (y : float) : PrimFloat.ltb nan y = false.
Proof.
  rewrite FloatAxioms.ltb_spec. change (Prim2SF nan) with S754_nan. reflexivity.
Qed.

Lemma ltb_nan_r (y : float) : PrimFloat.ltb y nan = false.
Proof.
  rewrite FloatAxioms.ltb_spec. change (Prim2SF nan) with S754_nan.
  unfold SFltb, SFcompare. destruct (Prim2SF y); reflexivity.
Qed.

(** X6: in [double], a coordinate that is not a number passes both
    tests of its axis, so [check_pts] accepts every list in which each
    coordinate is NaN or within the bounds. *)
Theorem check_pts_accepts_nan :
  forall (g : Grid3Dr.t float) (pts : list (Sxyz.sxyz float)),
    (forall p, In p pts ->
       (Sxyz.x p = nan \/
        PrimFloat.ltb (Sxyz.x p) (Grid3Dr.xmin g) = false /\
        PrimFloat.ltb (Grid3Dr.xmax g) (Sxyz.x p) = false) /\
       (Sxyz.y p = nan \/
        PrimFloat.ltb (Sxyz.y p) (Grid3Dr.ymin g) = false /\
        PrimFloat.ltb (Grid3Dr.ymax g) (Sxyz.y p) = false) /\
       (Sxyz.z p = nan \/
        PrimFloat.ltb (Sxyz.z p) (Grid3Dr.zmin g) = false /\
        PrimFloat.ltb (Grid3Dr.zmax g) (Sxyz.z p) = false)) ->
    Grid3Dr.check_pts g pts = (0, []).
Proof.
  intros g pts Hall. unfold Grid3Dr.check_pts. apply check_pts_from_accepts.
  intros p Hp. destruct (Hall p Hp) as (Hx & Hy & Hz).
  unfold Grid3Dr.outside, s_gtb. cbn [s_ltb Double_Scalar].
  assert (Ex : PrimFloat.ltb (Sxyz.x p) (Grid3Dr.xmin g) = false /\
               PrimFloat.ltb (Grid3Dr.xmax g) (Sxyz.x p) = false)
    by (destruct Hx as [-> | H]; [split; [apply ltb_nan_l | apply ltb_nan_r] | exact H]).
  assert (Ey : PrimFloat.ltb (Sxyz.y p) (Grid3Dr.ymin g) = false /\
               PrimFloat.ltb (Grid3Dr.ymax g) (Sxyz.y p) = false)
    by (destruct Hy as [-> | H]; [split; [apply ltb_nan_l | apply ltb_nan_r] | exact H]).
  assert (Ez : PrimFloat.ltb (Sxyz.z p) (Grid3Dr.zmin g) = false /\
               PrimFloat.ltb (Grid3Dr.zmax g) (Sxyz.z p) = false)
    by (destruct Hz as [-> | H]; [split; [apply ltb_nan_l | apply ltb_nan_r] | exact H]).
  destruct Ex as (-> & ->), Ey as (-> & ->), Ez as (-> & ->). reflexivity.
Qed.

Lemma check_pts_accepts_nan_witness :
  Grid3Dr.check_pts Examples.grid2_double
    [Examples.dpt nan nan nan; Examples.dpt 1 nan 4; Examples.dpt 0 0 0] = (0, []).
Proof.
  apply check_pts_accepts_nan.
  intros p [<- | [<- | [<- | []]]]; cbn [Sxyz.x Sxyz.y Sxyz.z Examples.dpt];
    repeat split;
    first [ left; reflexivity | right; split; vm_compute; reflexivity ].
Defined.

Lemma Prim2SF_nan_eq (f : float) : Prim2SF f = S754_nan -> f = nan.
Proof.
  intros H. apply Prim2SF_inj. rewrite H. reflexivity.
Qed.

Lemma sub_nan_l (y : float) : PrimFloat.sub nan y = nan.
Proof.
  apply Prim2SF_nan_eq. rewrite FloatAxioms.sub_spec.
  change (Prim2SF nan) with S754_nan. reflexivity.
Qed.

Lemma sub_nan_r (x : float) : PrimFloat.sub x nan = nan.
Proof.
  apply Prim2SF_nan_eq. rewrite FloatAxioms.sub_spec.
  change (Prim2SF nan) with S754_nan. unfold SF64sub, SFsub.
  destruct (Prim2SF x); reflexivity.
Qed.

Lemma div_nan_l (y : float) : PrimFloat.div nan y = nan.
Proof.
  apply Prim2SF_nan_eq. rewrite FloatAxioms.div_spec.
  change (Prim2SF nan) with S754_nan. reflexivity.
Qed.

Lemma add_nan_r (x : float) : PrimFloat.add x nan = nan.
Proof.
  apply Prim2SF_nan_eq. rewrite FloatAxioms.add_spec.
  change (Prim2SF nan) with S754_nan. unfold SF64add, SFadd.
  destruct (Prim2SF x); reflexivity.
Qed.

(** The conversion of line 93 of a coordinate that is not a number is
    undefined, whatever the axis. *)
Lemma axis_cell_nan (small minv maxv d : float) :
  Spec.axis_cell small minv maxv d nan = None.
Proof.
  unfold Spec.axis_cell, Spec.snap.
  cbn [s_add s_sub s_mul s_div s_ltb s_half s_trunc Double_Scalar].
  rewrite sub_nan_r, ltb_nan_l, sub_nan_l, div_nan_l, add_nan_r.
  reflexivity.
Qed.

(** X22: in [double], a point with a coordinate that is not a number,
    which [check_pts] lets through, makes a conversion to [T2] in
    [getCellNo] undefined: no cell index is returned for it, on any grid
    and for any value of [small]. *)
Theorem getCellNo_nan_undefined :
  forall (small : float) (g : Grid3Dr.t float) (p : Sxyz.sxyz float),
    Sxyz.x p = nan \/ Sxyz.y p = nan \/ Sxyz.z p = nan ->
    Grid3Dr.getCellNo small g p = None.
Proof.
  intros small g p H. rewrite getCellNo_cellIndex.
  unfold Spec.cellIndex, Spec.cell_x, Spec.cell_y, Spec.cell_z.
  destruct H as [-> | [-> | ->]]; rewrite axis_cell_nan.
  - reflexivity.
  - destruct (Spec.axis_cell small (Grid3Dr.xmin g) _ _ _); reflexivity.
  - destruct (Spec.axis_cell small (Grid3Dr.xmin g) _ _ _); [|reflexivity].
    destruct (Spec.axis_cell small (Grid3Dr.ymin g) _ _ _); reflexivity.
Qed.

Lemma getCellNo_nan_undefined_witness :
  Grid3Dr.check_pts Examples.grid2_double [Examples.dpt 1 nan 4] = (0, []) /\
  Grid3Dr.getCellNo Examples.small_double Examples.grid2_double
                    (Examples.dpt 1 nan 4) = None.
Proof.
  split; [vm_compute; reflexivity|].
  apply getCellNo_nan_undefined. right. left. reflexivity.
Defined.

Section CheckPtsConcat.
Context {T1 : Type} {ST : Scalar T1}.
Variable g : Grid3Dr.t T1.

Lemma check_pts_from_app (a b : list (Sxyz.sxyz T1)) :
  forall n,
    Grid3Dr.check_pts_from g n (a ++ b) =
    if fst (Grid3Dr.check_pts_from g n a) =? 0
    then Grid3Dr.check_pts_from g (n + length a) b
    else Grid3Dr.check_pts_from g n a.
Proof.
  induction a as [|p a IH]; intros n.
  - simpl. now rewrite Nat.add_0_r.
  - cbn [app Grid3Dr.check_pts_from length].
    destruct (Grid3Dr.outside g p); [reflexivity|].
    rewrite IH. now rewrite Nat.add_succ_comm.
Qed.

Lemma check_pts_from_shift (b : list (Sxyz.sxyz T1)) :
  forall n,
    (Grid3Dr.check_pts_from g 0 b = (0, []) ->
     Grid3Dr.check_pts_from g n b = (0, [])) /\
    (forall no, Grid3Dr.check_pts_from g 0 b = (1, [Grid3Dr.PointOutsideGrid no]) ->
                Grid3Dr.check_pts_from g n b = (1, [Grid3Dr.PointOutsideGrid (n + no)])).
Proof.
  intros n.
  destruct (existsb (Grid3Dr.outside g) b) eqn:Ex.
  - apply existsb_exists in Ex.
    destruct (first_offender g b Ex) as (k & p & Hk & Hp & Hbefore).
    rewrite (check_pts_from_first g b 0 k p Hk Hp Hbefore).
    rewrite (check_pts_from_first g b n k p Hk Hp Hbefore).
    split; [discriminate|]. intros no E. injection E as <-.
    do 3 f_equal. lia.
  - assert (Hall : forall p, In p b -> Grid3Dr.outside g p = false).
    { intros p Hp. destruct (Grid3Dr.outside g p) eqn:Ep; [|reflexivity].
      assert (existsb (Grid3Dr.outside g) b = true) by (apply existsb_exists; eauto).
      congruence. }
    rewrite (check_pts_from_accepts g b 0 Hall), (check_pts_from_accepts g b n Hall).
    split; [reflexivity | discriminate].
Qed.

End CheckPtsConcat.

(** X7: [check_pts] on two lists put end to end reports the failure of
    the first list when it has one; when the first list passes, the
    result is that of the second list, with the point number moved by
    the length of the first. *)
Theorem check_pts_concat :
  forall (T1 : Type) (ST : Scalar T1) (g : Grid3Dr.t T1) (a b : list (Sxyz.sxyz T1)),
    (forall no, Grid3Dr.check_pts g a = (1, [Grid3Dr.PointOutsideGrid no]) ->
                Grid3Dr.check_pts g (a ++ b) = (1, [Grid3Dr.PointOutsideGrid no])) /\
    (Grid3Dr.check_pts g a = (0, []) ->
     (Grid3Dr.check_pts g b = (0, []) -> Grid3Dr.check_pts g (a ++ b) = (0, [])) /\
     (forall no, Grid3Dr.check_pts g b = (1, [Grid3Dr.PointOutsideGrid no]) ->
                 Grid3Dr.check_pts g (a ++ b) =
                 (1, [Grid3Dr.PointOutsideGrid (length a + no)]))).
Proof.
  intros T1 ST g a b. unfold Grid3Dr.check_pts. rewrite check_pts_from_app.
  split.
  - intros no E. now rewrite E.
  - intros E. rewrite E. cbn [fst Z.eqb Nat.add].
    apply check_pts_from_shift.
Qed.

(** ** Threads and blocks *)

(** X8: without any source the thread count is 0, whatever the
    settings, and the block size of line 52 divides by zero. *)
Theorem plan_without_source :
  forall par_nt hw : Z,
    0 <= par_nt -> 0 <= hw ->
    Ttcr3d.num_threads par_nt hw 0 = 0 /\ Ttcr3d.plan par_nt hw 0 = None.
Proof.
  intros par_nt hw Hnt Hhw.
  assert (E : Ttcr3d.num_threads par_nt hw 0 = 0).
  { unfold Ttcr3d.num_threads.
    destruct (Z.eqb_spec par_nt 0) as [->|Hne].
    - change (SizeT.sub (SizeT.add 0 Ttcr3d.min_per_thread) 1 / Ttcr3d.min_per_thread)
        with 0.
      destruct (hw =? 0); cbn [negb]; lia.
    - destruct (Z.ltb_spec par_nt 0); lia. }
  split; [exact E|]. unfold Ttcr3d.plan. rewrite E. reflexivity.
Qed.

Lemma plan_without_source_witness :
  Ttcr3d.num_threads 3 8 0 = 0 /\ Ttcr3d.plan 3 8 0 = None.
Proof.
  apply (plan_without_source 3 8); lia.
Defined.

Lemma seq_map_NoDup (n : nat) : NoDup (map (fun k => Z.of_nat k + 1) (seq 0 n)).
Proof.
  apply Injective_map_NoDup; [|apply seq_NoDup].
  intros a b H. lia.
Qed.

(** X12: in every run with at least one source, the thread numbers
    passed to [raytrace] by the main thread and the workers are pairwise
    distinct and all below [num_threads], the number of workspaces the
    grid was built with. *)
Theorem thread_numbers_distinct (par_nt hw nTx : Z) (s : Ttcr3d.schedule) :
  0 <= par_nt -> 0 <= hw -> 1 <= nTx ->
  2 * nTx + Ttcr3d.min_per_thread < SizeT.modulus ->
  Ttcr3d.plan par_nt hw nTx = Some s ->
  NoDup (map Ttcr3d.thread_no (Ttcr3d.main_job s :: Ttcr3d.workers s)) /\
  forall j, In j (Ttcr3d.main_job s :: Ttcr3d.workers s) ->
            0 <= Ttcr3d.thread_no j < Ttcr3d.num_threads par_nt hw nTx.
Proof.
  intros Hpar Hhw H1 H2 Hs.
  destruct (partition_of_sources par_nt hw nTx Hpar Hhw H1 H2) as (Hnt & Hp & _ & _).
  rewrite Hp in Hs. injection Hs as <-.
  cbn [Ttcr3d.main_job Ttcr3d.workers map Ttcr3d.thread_no].
  rewrite map_map. cbn [Ttcr3d.thread_no].
  split.
  - constructor; [|apply seq_map_NoDup].
    rewrite in_map_iff. intros (k & Hk & _). lia.
  - intros j [<- | Hj]; [cbn; lia|].
    apply in_map_iff in Hj. destruct Hj as (k & <- & Hk). apply in_seq in Hk.
    cbn [Ttcr3d.thread_no]. lia.
Qed.

Lemma thread_numbers_distinct_witness :
  NoDup (map Ttcr3d.thread_no
             (Ttcr3d.main_job Examples.schedule_10_3 ::
              Ttcr3d.workers Examples.schedule_10_3)).
Proof.
  apply (proj1 (thread_numbers_distinct 3 8 10 Examples.schedule_10_3
                  ltac:(lia) ltac:(lia) ltac:(lia) ltac:(reflexivity) eq_refl)).
Defined.

(** The worker blocks stay within the sources when the block size is at
    least the number of workers. *)
Lemma workers_within_sources (nTx nt : Z) :
  1 <= nt <= nTx ->
  (nt - 1) * (nt - 1) <= nTx \/ nTx mod nt = 0 ->
  (nt - 1) * Spec.ceil_div nTx nt <= nTx.
Proof.
  intros Hnt Hc.
  pose proof (ceil_div_bounds nTx nt) as B.
  assert (Hb : nt * (Spec.ceil_div nTx nt - 1) < nTx <= nt * Spec.ceil_div nTx nt)
    by (apply B; lia).
  set (blk := Spec.ceil_div nTx nt) in *.
  destruct Hc as [Hsq | Hdiv].
  - assert (nt - 1 <= blk) by nia. nia.
  - assert (E : nTx = nt * (nTx / nt)) by (apply Z.div_exact; lia).
    assert (blk = nTx / nt) by nia. nia.
Qed.

(** X11: the sources visited are exactly [0 .. nTx-1], in order and
    each once, in each of these cases: auto mode with a hardware
    concurrency of at most 6; a thread count that divides the number of
    sources; [(num_threads - 1)^2 <= nTx]. *)
Theorem partition_exact_cases (par_nt hw nTx : Z) (s : Ttcr3d.schedule) :
  0 <= par_nt -> 0 <= hw -> 1 <= nTx ->
  2 * nTx + Ttcr3d.min_per_thread < SizeT.modulus ->
  Ttcr3d.plan par_nt hw nTx = Some s ->
  (par_nt = 0 /\ hw <= 6) \/
  nTx mod Ttcr3d.num_threads par_nt hw nTx = 0 \/
  (Ttcr3d.num_threads par_nt hw nTx - 1) * (Ttcr3d.num_threads par_nt hw nTx - 1) <= nTx ->
  Ttcr3d.visited s = Spec.range 0 nTx.
Proof.
  intros Hpar Hhw H1 H2 Hs Hc.
  apply (partition_within_sources par_nt hw nTx s Hpar Hhw H1 H2 Hs).
  pose proof (num_threads_bounds par_nt hw nTx Hpar Hhw H1) as Hnt.
  unfold Ttcr3d.min_per_thread in *.
  specialize (Hnt ltac:(lia)).
  apply workers_within_sources; [exact Hnt|].
  destruct Hc as [(-> & Hhw6) | [Hdiv | Hsq]]; [|now right | now left].
  left. rewrite num_threads_auto in * by (unfold Ttcr3d.min_per_thread; lia).
  pose proof (ceil_div_bounds nTx Ttcr3d.min_per_thread) as B.
  unfold Ttcr3d.min_per_thread in *. specialize (B ltac:(lia)).
  set (c := Spec.ceil_div nTx 5) in *.
  destruct (Z.eqb_spec hw 0); nia.
Qed.

Lemma partition_exact_cases_witness :
  Ttcr3d.visited Examples.schedule_23_4 = Spec.range 0 23.
Proof.
  apply (partition_exact_cases 0 4 23 Examples.schedule_23_4);
    first [ lia | reflexivity | left; split; [reflexivity | lia] ].
Defined.

Lemma partition_of_sources_witness :
  Ttcr3d.plan 3 8 10 = Some Examples.schedule_10_3 /\
  Ttcr3d.visited Examples.schedule_10_3 = Spec.range 0 10.
Proof.
  destruct (partition_of_sources 3 8 10 ltac:(lia) ltac:(lia) ltac:(lia)
                                 ltac:(reflexivity)) as (_ & Hp & _ & Hv).
  split; [exact Hp | exact Hv].
Defined.

Lemma partition_within_sources_witness :
  Ttcr3d.visited Examples.schedule_10_3 = Spec.range 0 10.
Proof.
  apply (proj1 (partition_within_sources 3 8 10 Examples.schedule_10_3
                  ltac:(lia) ltac:(lia) ltac:(lia) ltac:(reflexivity) eq_refl)).
  vm_compute. discriminate.
Defined.

(** ** File names *)

Section StdStringProps.
Local Open Scope string_scope.

Lemma string_app_assoc (a b c : string) : (a ++ b) ++ c = a ++ (b ++ c).
Proof. induction a as [|x a IH]; simpl; [reflexivity | now rewrite IH]. Qed.

Lemma string_app_nil_r (a : string) : a ++ "" = a.
Proof. induction a as [|x a IH]; simpl; [reflexivity | now rewrite IH]. Qed.

Lemma string_length_app (a b : string) :
  String.length (a ++ b) = (String.length a + String.length b)%nat.
Proof. induction a as [|x a IH]; simpl; [reflexivity | now rewrite IH]. Qed.

Lemma size_app (a b : string) :
  StdString.size (a ++ b) = StdString.size a + StdString.size b.
Proof. unfold StdString.size. rewrite string_length_app. lia. Qed.

Lemma size_nonneg (a : string) : 0 <= StdString.size a.
Proof. unfold StdString.size. lia. Qed.

Lemma drop_app (a b : string) : StdString.drop (String.length a) (a ++ b) = b.
Proof. induction a as [|x a IH]; simpl; [now destruct b | exact IH]. Qed.

Lemma take_app (a b : string) : StdString.take (String.length a) (a ++ b) = a.
Proof.
  induction a as [|x a IH]; simpl; [now destruct b | now rewrite IH].
Qed.

Lemma drop_all (a : string) : StdString.drop (String.length a) a = EmptyString.
Proof. induction a as [|x a IH]; simpl; [reflexivity | exact IH]. Qed.

Lemma contains_app (c : ascii) (a b : string) :
  StdString.contains c (a ++ b) = StdString.contains c a || StdString.contains c b.
Proof.
  induction a as [|x a IH]; simpl; [reflexivity | now rewrite IH, orb_assoc].
Qed.

Lemma rfind_from_none (c : ascii) (s : string) :
  forall i, StdString.rfind_from c s i = None <-> StdString.contains c s = false.
Proof.
  induction s as [|a s IH]; intros i; simpl.
  - tauto.
  - rewrite orb_false_iff, <- (IH (i + 1)).
    destruct (StdString.rfind_from c s (i + 1)); destruct (Ascii.eqb a c);
      intuition congruence.
Qed.

(** The last occurrence: what follows it holds no [c]. *)
Lemma rfind_from_last (c : ascii) (a b : string) :
  StdString.contains c b = false ->
  forall i, StdString.rfind_from c (a ++ String c b) i = Some (i + StdString.size a).
Proof.
  intros Hb. induction a as [|x a IH]; intros i.
  - cbn [append StdString.rfind_from].
    rewrite (proj2 (rfind_from_none c b (i + 1)) Hb), Ascii.eqb_refl.
    f_equal. unfold StdString.size. simpl. lia.
  - cbn [append StdString.rfind_from]. rewrite IH. f_equal.
    unfold StdString.size. simpl String.length. lia.
Qed.

Lemma rfind_from_split (c : ascii) (s : string) :
  forall i k, StdString.rfind_from c s i = Some k ->
              exists a b, s = a ++ String c b /\ StdString.contains c b = false /\
                          k = i + StdString.size a.
Proof.
  induction s as [|x s IH]; intros i k H; simpl in H.
  - discriminate.
  - destruct (StdString.rfind_from c s (i + 1)) as [k'|] eqn:E.
    + injection H as <-. destruct (IH (i + 1) k' E) as (a & b & -> & Hb & ->).
      exists (String x a), b. split; [reflexivity|]. split; [exact Hb|].
      unfold StdString.size. simpl String.length. lia.
    + destruct (Ascii.eqb_spec x c) as [->|Hne]; [|discriminate].
      injection H as <-. exists EmptyString, s.
      split; [reflexivity|]. split; [now apply (rfind_from_none c s (i + 1))|].
      unfold StdString.size. simpl. lia.
Qed.

Lemma substr_at (a b : string) :
  StdString.substr (a ++ b) (StdString.size a) = Some b.
Proof.
  unfold StdString.substr. rewrite size_app.
  pose proof (size_nonneg b).
  destruct (Z.ltb_spec (StdString.size a + StdString.size b) (StdString.size a)); [lia|].
  unfold StdString.size. rewrite Nat2Z.id. now rewrite drop_app.
Qed.

Lemma erase_prefix (a b : string) :
  StdString.erase (a ++ b) 0 (StdString.size a) = Some b.
Proof.
  unfold StdString.erase. pose proof (size_nonneg (a ++ b)).
  destruct (Z.ltb_spec (StdString.size (a ++ b)) 0); [lia|].
  cbn [Z.to_nat StdString.take]. rewrite size_app.
  pose proof (size_nonneg b).
  rewrite Z.sub_0_r, Z.min_l by lia. rewrite Z.add_0_l.
  unfold StdString.size. rewrite Nat2Z.id. simpl. now rewrite drop_app.
Qed.

Lemma erase_nothing (a : string) : StdString.erase a 0 0 = Some a.
Proof. exact (erase_prefix EmptyString a). Qed.

Lemma erase_suffix (a b : string) :
  StdString.erase (a ++ b) (StdString.size a) (StdString.size b) = Some a.
Proof.
  unfold StdString.erase. rewrite size_app.
  pose proof (size_nonneg b).
  destruct (Z.ltb_spec (StdString.size a + StdString.size b) (StdString.size a)); [lia|].
  replace (StdString.size a + StdString.size b - StdString.size a)
    with (StdString.size b) by lia.
  rewrite Z.min_id. unfold StdString.size at 1. rewrite Nat2Z.id, take_app.
  rewrite <- size_app. unfold StdString.size. rewrite Nat2Z.id, drop_all.
  now rewrite string_app_nil_r.
Qed.

Lemma erase_out_of_range (a : string) (pos len : Z) :
  StdString.size a < pos -> StdString.erase a pos len = None.
Proof.
  intros H. unfold StdString.erase.
  destruct (Z.ltb_spec (StdString.size a) pos); [reflexivity | lia].
Qed.

End StdStringProps.

Section BodyNames.
Local Open Scope string_scope.

Lemma extension_of_suffix (stem t : string) :
  StdString.size (stem ++ String "." t) < StdString.npos ->
  StdString.contains "." t = false ->
  Body.extension (stem ++ String "." t) = Some (String "." t).
Proof.
  intros Hsz Ht. unfold Body.extension, StdString.rfind.
  rewrite (rfind_from_last "." stem t Ht 0). rewrite Z.add_0_l.
  rewrite size_app in Hsz. pose proof (size_nonneg (String "." t)).
  destruct (Z.eqb_spec (StdString.size stem) StdString.npos) as [E|_]; [lia|].
  cbn [negb]. apply substr_at.
Qed.

(** X13: [extension] never throws: the model file name is a stem
  followed by the extension, which is empty exactly when the name
  holds no dot and otherwise starts at the last dot of the name. *)
Theorem extension_is_last_suffix (f : string) :
  StdString.size f < StdString.npos ->
  exists stem e,
    Body.extension f = Some e /\ f = stem ++ e /\
    ((e = "" /\ StdString.contains "." f = false) \/
     (exists t, e = String "." t /\ StdString.contains "." t = false)).
Proof.
  intros Hsz.
  destruct (StdString.rfind_from "." f 0) as [k|] eqn:E.
  - destruct (rfind_from_split "." f 0 k E) as (a & b & -> & Hb & ->).
    exists a, (String "." b). split; [now apply extension_of_suffix|].
    split; [reflexivity|]. right. now exists b.
  - exists f, "". unfold Body.extension, StdString.rfind. rewrite E.
    rewrite Z.eqb_refl. cbn [negb].
    split; [reflexivity|]. split; [now rewrite string_app_nil_r|].
    left. split; [reflexivity|]. now apply (rfind_from_none "." f 0).
Qed.

Lemma extension_is_last_suffix_witness :
exists stem e,
  Body.extension "a.b/model.msh" = Some e /\ "a.b/model.msh"%string = (stem ++ e)%string /\
  ((e = EmptyString /\ StdString.contains "." "a.b/model.msh" = false) \/
   (exists t, e = String "." t /\ StdString.contains "." t = false)).
Proof.
apply (extension_is_last_suffix "a.b/model.msh"). reflexivity.
Defined.

Lemma extension_suffix (f e : string) :
  StdString.size f < StdString.npos ->
  Body.extension f = Some e -> exists stem, f = stem ++ e.
Proof.
  intros Hsz He.
  destruct (extension_is_last_suffix f Hsz) as (stem & e' & He' & Hf & _).
  rewrite He in He'. injection He' as <-. now exists stem.
Qed.

(** X14: the grid builder is chosen by the end of the model file name
  alone, case-sensitively: [unstruct] exactly for the names ending in
  [.msh]; [recti] and [unstruct_vtu] exactly for the names ending in
  [.vtr] and [.vtu] when compiled with VTK; without VTK those names
  end [body] with the message about VTK support. *)
Theorem select_grid_by_suffix (vtk : bool) (f : string) :
  StdString.size f < StdString.npos ->
  (Body.select_grid vtk f = Some (Body.Build Body.unstruct) <->
   exists stem, f = stem ++ ".msh") /\
  (Body.select_grid vtk f = Some (Body.Build Body.recti) <->
   vtk = true /\ exists stem, f = stem ++ ".vtr") /\
  (Body.select_grid vtk f = Some (Body.Build Body.unstruct_vtu) <->
   vtk = true /\ exists stem, f = stem ++ ".vtu") /\
  (Body.select_grid vtk f = Some Body.NoVTK <->
   vtk = false /\ exists stem, f = stem ++ ".vtr" \/ f = stem ++ ".vtu").
Proof.
  intros Hsz.
  unfold Body.select_grid.
  destruct (Body.extension f) as [e|] eqn:He.
  2:{ destruct (extension_is_last_suffix f Hsz) as (? & ? & Hx & _). congruence. }
  destruct (extension_suffix f e Hsz He) as (stem & Hf).
  assert (Hsel : forall t, StdString.contains "." t = false ->
                           (exists s, f = s ++ String "." t) -> e = String "." t).
  { intros t Ht (s & Hs).
    assert (E : Body.extension f = Some (String "." t)).
    { rewrite Hs. apply extension_of_suffix; [now rewrite <- Hs | exact Ht]. }
    congruence. }
  unfold Body.select_builder.
  split; [|split; [|split]]; split.
  - intros H. exists stem.
    destruct (String.eqb_spec e ".vtr"); [destruct vtk; discriminate|].
    destruct (String.eqb_spec e ".vtu"); [destruct vtk; discriminate|].
    destruct (String.eqb_spec e ".msh"); [congruence | discriminate].
  - intros Hs. rewrite (Hsel "msh" eq_refl Hs). reflexivity.
  - intros H.
    destruct (String.eqb_spec e ".vtr");
      [destruct vtk; [split; [reflexivity | exists stem; congruence] | discriminate]|].
    destruct (String.eqb_spec e ".vtu"); [destruct vtk; discriminate|].
    destruct (String.eqb_spec e ".msh"); discriminate.
  - intros (-> & Hs). rewrite (Hsel "vtr" eq_refl Hs). reflexivity.
  - intros H.
    destruct (String.eqb_spec e ".vtr"); [destruct vtk; discriminate|].
    destruct (String.eqb_spec e ".vtu");
      [destruct vtk; [split; [reflexivity | exists stem; congruence] | discriminate]|].
    destruct (String.eqb_spec e ".msh"); discriminate.
  - intros (-> & Hs). rewrite (Hsel "vtu" eq_refl Hs). reflexivity.
  - intros H.
    destruct (String.eqb_spec e ".vtr");
      [destruct vtk; [discriminate | split; [reflexivity | exists stem; left; congruence]]|].
    destruct (String.eqb_spec e ".vtu");
      [destruct vtk; [discriminate | split; [reflexivity | exists stem; right; congruence]]|].
    destruct (String.eqb_spec e ".msh"); discriminate.
  - intros (-> & s & [Hs|Hs]).
    + rewrite (Hsel "vtr" eq_refl (ex_intro _ s Hs)). reflexivity.
    + rewrite (Hsel "vtu" eq_refl (ex_intro _ s Hs)). reflexivity.
Qed.

Lemma select_grid_by_suffix_witness :
Body.select_grid false "model.msh" = Some (Body.Build Body.unstruct) /\
Body.select_grid false "model.vtr" = Some Body.NoVTK.
Proof.
split.
- apply (proj1 (select_grid_by_suffix false "model.msh" eq_refl)).
  exists "model"%string. reflexivity.
- apply (proj2 (proj2 (proj2 (select_grid_by_suffix false "model.vtr" eq_refl)))).
  split; [reflexivity|]. exists "model"%string. left. reflexivity.
Defined.
End BodyNames.

Section SrcName.
Local Open Scope string_scope.

Lemma strip_directories (dir base : string) :
  StdString.size (dir ++ base) < StdString.npos ->
  Spec.is_dir_prefix dir -> StdString.contains "/" base = false ->
  StdString.erase (dir ++ base) 0
                  (SizeT.add (StdString.rfind (dir ++ base) "/") 1) = Some base.
Proof.
  intros Hsz [-> | (d & ->)] Hb.
  - cbn [append]. unfold StdString.rfind.
    rewrite (proj2 (rfind_from_none "/" base 0) Hb).
    replace (SizeT.add StdString.npos 1) with 0 by reflexivity.
    apply erase_nothing.
  - rewrite string_app_assoc. cbn [append].
    unfold StdString.rfind. rewrite (rfind_from_last "/" d base Hb 0), Z.add_0_l.
    rewrite string_app_assoc, size_app in Hsz.
    pose proof (size_nonneg d). pose proof (size_nonneg ("/" ++ base)).
    assert (E : SizeT.add (StdString.size d) 1 = StdString.size (d ++ "/")).
    { rewrite size_app. unfold SizeT.add. apply SizeT_wrap_small.
      unfold SizeT.in_range, StdString.npos in *.
      change (StdString.size "/") with 1. lia. }
    rewrite E.
    replace (d ++ String "/" base) with ((d ++ "/") ++ base)
      by (now rewrite string_app_assoc).
    apply erase_prefix.
Qed.

(** X15: for a source file name made of directories, a stem, a dot and
  an extension without dot, [srcname] is the stem, so the travel-time
  file is [basename_stem_tt.dat]: the directories and the extension of
  the source file play no part in the name of its output. *)
Theorem srcname_is_stem (dir stem ext : string) :
  StdString.size (dir ++ stem ++ String "." ext) < StdString.npos ->
  Spec.is_dir_prefix dir ->
  StdString.contains "/" stem = false ->
  StdString.contains "/" ext = false ->
  StdString.contains "." ext = false ->
  Body.srcname (dir ++ stem ++ String "." ext) = Some stem /\
  forall basename,
    Body.tt_filename basename (dir ++ stem ++ String "." ext) =
    Some (basename ++ "_" ++ stem ++ "_tt.dat").
Proof.
  intros Hsz Hdir Hs He Hdot.
  assert (E0 : Body.srcname (dir ++ stem ++ String "." ext) = Some stem);
    [|split; [exact E0 | intros basename; unfold Body.tt_filename; now rewrite E0]].
  unfold Body.srcname.
  rewrite strip_directories; try assumption.
  2:{ rewrite contains_app. cbn [StdString.contains]. rewrite Hs, He. reflexivity. }
  unfold StdString.rfind. rewrite (rfind_from_last "." stem ext Hdot 0), Z.add_0_l.
  rewrite size_app in Hsz. pose proof (size_nonneg dir).
  pose proof (size_nonneg stem). pose proof (size_nonneg (String "." ext)).
  rewrite size_app in Hsz.
  assert (E : SizeT.sub (StdString.size (stem ++ String "." ext)) (StdString.size stem)
              = StdString.size (String "." ext)).
  { rewrite size_app. unfold SizeT.sub.
    replace (StdString.size stem + StdString.size (String "." ext) - StdString.size stem)
      with (StdString.size (String "." ext)) by lia.
    apply SizeT_wrap_small. unfold SizeT.in_range, StdString.npos in *. lia. }
  rewrite E. apply erase_suffix.
Qed.

Lemma srcname_is_stem_witness :
Body.srcname "data/run1/src01.dat" = Some "src01"%string /\
forall basename,
  Body.tt_filename basename "data/run1/src01.dat" =
  Some (basename ++ "_" ++ "src01" ++ "_tt.dat")%string.
Proof.
apply (srcname_is_stem "data/run1/" "src01" "dat");
  first [ reflexivity | right; exists "data/run1"%string; reflexivity ].
Defined.

(** X16: when the part of a source file name after its last slash holds
  no dot, the second [erase] of [srcname] is called with [npos] and
  throws [std::out_of_range]: no output file name is produced, whatever
  the directories (which may hold dots) and the basename. *)
Theorem srcname_without_dot_throws (dir base : string) :
  StdString.size (dir ++ base) < StdString.npos ->
  Spec.is_dir_prefix dir ->
  StdString.contains "/" base = false ->
  StdString.contains "." base = false ->
  Body.srcname (dir ++ base) = None /\
  forall basename, Body.tt_filename basename (dir ++ base) = None.
Proof.
  intros Hsz Hdir Hs Hdot.
  assert (E : Body.srcname (dir ++ base) = None).
  { unfold Body.srcname. rewrite strip_directories by assumption.
    unfold StdString.rfind. rewrite (proj2 (rfind_from_none "." base 0) Hdot).
    apply erase_out_of_range. rewrite size_app in Hsz.
    pose proof (size_nonneg dir). lia. }
  split; [exact E|]. intros basename. unfold Body.tt_filename. now rewrite E.
Qed.

Lemma srcname_without_dot_throws_witness :
Body.srcname "a.b/src01" = None /\
forall basename, Body.tt_filename basename "a.b/src01" = None.
Proof.
apply (srcname_without_dot_throws "a.b/" "src01");
  first [ reflexivity | right; exists "a.b"%string; reflexivity ].
Defined.
End SrcName.

(** ** Ray-path output *)

Section FormatInjective.
Context {T : Type}.

Lemma points_resumable (p : Ttcr3d.path T) :
  forall (q : Ttcr3d.path T) (r r' : list (Ttcr3d.item T)),
    length p = length q ->
    map Ttcr3d.Point p ++ r = map Ttcr3d.Point q ++ r' -> p = q /\ r = r'.
Proof.
  induction p as [|a p IH]; intros [|b q] r r' Hl H; try discriminate.
  - now split.
  - simpl in H. injection H as -> H. simpl in Hl.
    destruct (IH q r r') as (-> & ->); [lia | exact H | now split].
Qed.

Lemma enc_path_resumable : Spec.resumable (@Spec.enc_path T).
Proof.
  intros p q r r' H. unfold Spec.enc_path in H. simpl in H.
  injection H as Hl H. apply points_resumable; [lia | exact H].
Qed.

Lemma flat_map_resumable {A : Type} (enc : A -> list (Ttcr3d.item T)) :
  Spec.resumable enc ->
  forall (l l' : list A) (r r' : list (Ttcr3d.item T)),
    length l = length l' ->
    flat_map enc l ++ r = flat_map enc l' ++ r' -> l = l' /\ r = r'.
Proof.
  intros Henc. induction l as [|a l IH]; intros [|b l'] r r' Hl H; try discriminate.
  - now split.
  - simpl in H, Hl. rewrite <- !app_assoc in H.
    destruct (Henc a b _ _ H) as (-> & H').
    destruct (IH l' r r') as (-> & ->); [lia | exact H' | now split].
Qed.

Lemma counted_resumable {A : Type} (enc : A -> list (Ttcr3d.item T)) :
  Spec.resumable enc -> Spec.resumable (Spec.counted enc).
Proof.
  intros Henc l l' r r' H. unfold Spec.counted in H. simpl in H.
  injection H as Hl H. apply (flat_map_resumable enc Henc); [lia | exact H].
Qed.

(** X17: the content of the global ray-path file determines the three
  nested collections it was written from: two runs that write the same
  stream had the same direct, source-to-reflector and
  reflector-to-receiver paths, at every nesting level. *)
Theorem write_global_injective
        (r_data r_data' : list (list (Ttcr3d.path T)))
        (rfl rfl' rfl2 rfl2' : list (list (list (Ttcr3d.path T)))) :
  Ttcr3d.write_global r_data rfl rfl2 = Ttcr3d.write_global r_data' rfl' rfl2' ->
  r_data = r_data' /\ rfl = rfl' /\ rfl2 = rfl2'.
Proof.
  rewrite !write_global_rp_bin. unfold Spec.rp_bin. intros H.
  pose proof (counted_resumable _ enc_path_resumable) as R1.
  pose proof (counted_resumable _ R1) as R2.
  pose proof (counted_resumable _ R2) as R3.
  destruct (R2 _ _ _ _ H) as (-> & H1).
  destruct (R3 _ _ _ _ H1) as (-> & H2).
  rewrite <- (app_nil_r (Spec.counted _ rfl2)) in H2.
  rewrite <- (app_nil_r (Spec.counted _ rfl2')) in H2.
  destruct (R3 _ _ _ _ H2) as (-> & _). auto.
Qed.
End FormatInjective.

Lemma write_global_injective_witness :
  Examples.direct_paths = Examples.direct_paths /\
  [[Examples.rfl_paths; []]] = [[Examples.rfl_paths; []]] /\
  [[Examples.rcv_paths; []]] = [[Examples.rcv_paths; []]].
Proof.
  apply (write_global_injective Examples.direct_paths Examples.direct_paths
           [[Examples.rfl_paths; []]] [[Examples.rfl_paths; []]]
           [[Examples.rcv_paths; []]] [[Examples.rcv_paths; []]]).
  reflexivity.
Defined.

Section StitchResult.
Context {T : Type}.
Variable sxyz_eqb : Sxyz.sxyz T -> Sxyz.sxyz T -> bool.

(** Whenever the scan ends, it has appended the stitched path. *)
Lemma scan_result (rfl : list (Ttcr3d.path T)) :
  forall (l1 : list (Ttcr3d.path T)) (acc : Ttcr3d.path T) (l2 r : list (Ttcr3d.path T))
         (pt1 : Sxyz.sxyz T) (rest : Ttcr3d.path T),
    Ttcr3d.scan sxyz_eqb pt1 (pt1 :: rest) rfl (length l1) (l1 ++ acc :: l2) = Some r ->
    r = l1 ++ (acc ++ Spec.stitched sxyz_eqb rfl (pt1 :: rest)) :: l2.
Proof.
  induction rfl as [|p rfl IH]; intros l1 acc l2 r pt1 rest H.
  - simpl in H. injection H as <-. simpl. now rewrite app_nil_r.
  - cbn [Ttcr3d.scan] in H. cbn [Spec.stitched find]. unfold Spec.ends_at at 1.
    destruct (Ttcr3d.back p) as [b|]; [|discriminate].
    destruct (sxyz_eqb pt1 b).
    + rewrite push_back_from_at in H. cbv beta iota in H.
      pose proof (eq_trans (eq_sym (push_back_from_at l1 (acc ++ skipn 0 p) l2
                                                      (pt1 :: rest) 1)) H) as H'.
      injection H' as <-. cbn [skipn]. now rewrite <- app_assoc.
    + apply (IH l1 acc l2 r pt1 rest H).
Qed.

Section OnePair.
Variables (rfl_r_data rfl2_r_data : list (list (list (Ttcr3d.path T)))) (nr ns : nat).
Variables (d1 d2 : list (list (Ttcr3d.path T))) (rfl d2s : list (Ttcr3d.path T)).
Hypothesis Hd1 : nth_error rfl_r_data nr = Some d1.
Hypothesis Hrfl : nth_error d1 ns = Some rfl.
Hypothesis Hd2 : nth_error rfl2_r_data nr = Some d2.
Hypothesis Hd2s : nth_error d2 ns = Some d2s.

Lemma stitch_rx_result (irx : nat) (l1 l2 r : list (Ttcr3d.path T)) :
  length l1 = irx ->
  Ttcr3d.stitch_rx sxyz_eqb rfl_r_data rfl2_r_data nr ns irx (l1 ++ [] :: l2) = Some r ->
  exists rx, nth_error d2s irx = Some rx /\ rx <> [] /\
             r = l1 ++ Spec.stitched sxyz_eqb rfl rx :: l2.
Proof.
  intros Hlen H. unfold Ttcr3d.stitch_rx in H.
  rewrite Hd2, Hd2s in H.
  destruct (nth_error d2s irx) as [rx|]; [|discriminate].
  destruct rx as [|pt1 rest]; [discriminate|].
  cbn [nth_error] in H. rewrite Hd1, Hrfl in H. subst irx.
  apply scan_result in H. exists (pt1 :: rest).
  split; [reflexivity|]. split; [discriminate | exact H].
Qed.

Lemma stitch_loop_result (count : nat) :
  forall (irx : nat) (done r : list (Ttcr3d.path T)),
    length done = irx ->
    Ttcr3d.stitch_loop sxyz_eqb rfl_r_data rfl2_r_data nr ns count irx
                       (done ++ repeat [] count) = Some r ->
    (forall k, (irx <= k < irx + count)%nat ->
               exists rx, nth_error d2s k = Some rx /\ rx <> []) /\
    r = done ++ map (fun k => Spec.stitched sxyz_eqb rfl (nth k d2s []))
                    (seq irx count).
Proof.
  induction count as [|count IH]; intros irx done r Hlen H.
  - simpl in H. injection H as <-. split; [intros k Hk; lia | reflexivity].
  - cbn [Ttcr3d.stitch_loop repeat] in H.
    destruct (Ttcr3d.stitch_rx sxyz_eqb rfl_r_data rfl2_r_data nr ns irx
                               (done ++ [] :: repeat [] count)) as [r1|] eqn:E;
      [|discriminate].
    destruct (stitch_rx_result irx done (repeat [] count) r1 Hlen E)
      as (rx & Hrx & Hne & ->).
    replace (done ++ Spec.stitched sxyz_eqb rfl rx :: repeat [] count)
      with ((done ++ [Spec.stitched sxyz_eqb rfl rx]) ++ repeat [] count) in H
      by (now rewrite <- app_assoc).
    apply IH in H; [|rewrite length_app; simpl; lia].
    destruct H as (Hall & ->). split.
    + intros k Hk. destruct (Nat.eq_dec k irx) as [->|Hk'].
      * now exists rx.
      * apply Hall. lia.
    + cbn [seq map]. rewrite (nth_error_nth _ _ _ Hrx). now rewrite <- app_assoc.
Qed.

Lemma stitch_result (nrcv : nat) (r_tmp : list (Ttcr3d.path T)) :
  Ttcr3d.stitch sxyz_eqb nrcv rfl_r_data rfl2_r_data nr ns = Some r_tmp ->
  (forall k, (k < nrcv)%nat -> exists rx, nth_error d2s k = Some rx /\ rx <> []) /\
  r_tmp = map (fun k => Spec.stitched sxyz_eqb rfl (nth k d2s [])) (seq 0 nrcv).
Proof.
  intros H. unfold Ttcr3d.stitch in H.
  apply (stitch_loop_result nrcv 0%nat [] r_tmp eq_refl) in H.
  destruct H as (Hall & ->). split; [|reflexivity].
  intros k Hk. apply Hall. lia.
Qed.
End OnePair.

Lemma back_app_last (p : Ttcr3d.path T) (b : Sxyz.sxyz T) :
  Ttcr3d.back p = Some b -> exists q, p = q ++ [b].
Proof.
  unfold Ttcr3d.back. intros H.
  destruct p as [|a p] using rev_ind; [discriminate|].
  exists p. rewrite length_app in H. simpl in H.
  replace (Nat.pred (length p + 1)) with (length p) in H by lia.
  rewrite nth_error_app2 in H by lia. rewrite Nat.sub_diag in H.
  simpl in H. now injection H as ->.
Qed.
End StitchResult.

(** X18: whenever the stitching loop of a reflector ends, [r_tmp] holds
    one path per receiver; the path of a receiver is empty exactly when
    no source-to-reflector path ends at the first point of the
    receiver's path, and is otherwise such a path, ending at the
    junction, followed by the receiver's path without its first point:
    one point less than the two paths together. *)
Theorem stitch_result_shape :
  forall (T : Type) (sxyz_eqb : Sxyz.sxyz T -> Sxyz.sxyz T -> bool) (nrcv : nat)
         (rfl_r_data rfl2_r_data : list (list (list (Ttcr3d.path T)))) (nr ns : nat)
         (d1 d2 : list (list (Ttcr3d.path T))) (rfl d2s : list (Ttcr3d.path T))
         (r_tmp : list (Ttcr3d.path T)),
    nth_error rfl_r_data nr = Some d1 -> nth_error d1 ns = Some rfl ->
    nth_error rfl2_r_data nr = Some d2 -> nth_error d2 ns = Some d2s ->
    Ttcr3d.stitch sxyz_eqb nrcv rfl_r_data rfl2_r_data nr ns = Some r_tmp ->
    length r_tmp = nrcv /\
    forall irx, (irx < nrcv)%nat ->
      exists pt1 rest s,
        nth_error d2s irx = Some (pt1 :: rest) /\ nth_error r_tmp irx = Some s /\
        (s = [] <-> forall p, In p rfl -> Spec.ends_at sxyz_eqb pt1 p = false) /\
        (s <> [] ->
         exists q b, In (q ++ [b]) rfl /\ sxyz_eqb pt1 b = true /\
                     s = q ++ b :: rest /\
                     S (length s) = (length (q ++ [b]) + length (pt1 :: rest))%nat).
Proof.
  intros T sxyz_eqb nrcv rfl_r_data rfl2_r_data nr ns d1 d2 rfl d2s r_tmp
         Hd1 Hrfl Hd2 Hd2s Hs.
  destruct (stitch_result sxyz_eqb rfl_r_data rfl2_r_data nr ns d1 d2 rfl d2s
              Hd1 Hrfl Hd2 Hd2s nrcv r_tmp Hs) as (Hall & ->).
  split; [now rewrite length_map, length_seq|].
  intros irx Hirx. destruct (Hall irx Hirx) as (rx & Hrx & Hne).
  destruct rx as [|pt1 rest]; [congruence|].
  exists pt1, rest. eexists. split; [exact Hrx|].
  split; [rewrite nth_error_map_seq by exact Hirx; reflexivity|].
  rewrite (nth_error_nth _ _ _ Hrx). cbn [Spec.stitched].
  destruct (find (Spec.ends_at sxyz_eqb pt1) rfl) as [p|] eqn:Ef.
  - destruct (find_some _ _ Ef) as (Hin & He).
    unfold Spec.ends_at in He.
    destruct (Ttcr3d.back p) as [b|] eqn:Eb; [|discriminate].
    destruct (back_app_last p b Eb) as (q & ->).
    split.
    + split.
      * intros E. destruct q; discriminate.
      * intros Hno. specialize (Hno _ Hin). unfold Spec.ends_at in Hno.
        rewrite Eb in Hno. congruence.
    + intros _. exists q, b. split; [exact Hin|]. split; [exact He|].
      split; [now rewrite <- app_assoc|].
      rewrite !length_app. simpl. lia.
  - split.
    + split; [|reflexivity]. intros _ p Hp. apply (find_none _ _ Ef p Hp).
    + intros Hc. congruence.
Qed.

Lemma stitch_result_shape_witness :
  length [[Examples.pt 0 0 0; Examples.pt 1 0 0; Examples.pt 2 0 0; Examples.pt 3 0 0];
          ([] : Ttcr3d.path Q)] = 2%nat.
Proof.
  apply (proj1 (stitch_result_shape Q Examples.pt_eqb 2
                  [[Examples.rfl_paths]] [[Examples.rcv_paths_unmatched]] 0 0
                  [Examples.rfl_paths] [Examples.rcv_paths_unmatched]
                  Examples.rfl_paths Examples.rcv_paths_unmatched
                  [[Examples.pt 0 0 0; Examples.pt 1 0 0; Examples.pt 2 0 0;
                    Examples.pt 3 0 0]; []]
                  eq_refl eq_refl eq_refl eq_refl eq_refl)).
Defined.

Lemma to_string_injective (n m : nat) : Ttcr3d.to_string n = Ttcr3d.to_string m -> n = m.
Proof.
  unfold Ttcr3d.to_string. intros H.
  assert (E : Some (Nat.to_uint n) = Some (Nat.to_uint m))
    by (rewrite <- !NilEmpty.usu; now rewrite H).
  injection E as E.
  rewrite <- (DecimalNat.Unsigned.of_to n), <- (DecimalNat.Unsigned.of_to m).
  now rewrite E.
Qed.

Lemma string_app_inv_head (a b c : string) : (a ++ b = a ++ c)%string -> b = c.
Proof.
  induction a as [|x a IH]; simpl; intros H; [exact H|].
  injection H as H. now apply IH.
Qed.

Lemma list_ascii_of_string_app (a b : string) :
  list_ascii_of_string (a ++ b) = list_ascii_of_string a ++ list_ascii_of_string b.
Proof. induction a as [|x a IH]; simpl; [reflexivity | now rewrite IH]. Qed.

Lemma string_app_inv_tail (a b c : string) : (a ++ c = b ++ c)%string -> a = b.
Proof.
  intros H.
  assert (E : list_ascii_of_string a = list_ascii_of_string b).
  { apply (app_inv_tail (list_ascii_of_string c)).
    rewrite <- !list_ascii_of_string_app. now rewrite H. }
  rewrite <- (string_of_list_ascii_of_string a), <- (string_of_list_ascii_of_string b).
  now rewrite E.
Qed.

Lemma rp_filename_injective (prefix : string) (nr nr' : nat) :
  Spec.rp_filename prefix nr = Spec.rp_filename prefix nr' -> nr = nr'.
Proof.
  unfold Spec.rp_filename. intros H.
  apply string_app_inv_head in H. apply (string_app_inv_head "_rp") in H.
  apply string_app_inv_tail in H. apply to_string_injective in H. lia.
Qed.

Section SaveReflected.
Context {T : Type}.
Variable sxyz_eqb : Sxyz.sxyz T -> Sxyz.sxyz T -> bool.
Variables (prefix : string) (nrcv : nat).
Variables (rfl_r_data rfl2_r_data : list (list (list (Ttcr3d.path T)))) (ns : nat).

Lemma save_reflected_outputs (count : nat) :
  forall (nr0 : nat) (outs : list (Ttcr3d.output T)),
    Ttcr3d.save_reflected sxyz_eqb prefix nrcv rfl_r_data rfl2_r_data ns count nr0 =
    Some outs ->
    map Spec.output_name outs = map (Spec.rp_filename prefix) (seq nr0 count) /\
    forall k, (k < count)%nat ->
      exists r_tmp,
        Ttcr3d.stitch sxyz_eqb nrcv rfl_r_data rfl2_r_data (nr0 + k) ns = Some r_tmp /\
        nth_error outs k = Some (Ttcr3d.SaveRayPaths (Spec.rp_filename prefix (nr0 + k)) r_tmp).
Proof.
  induction count as [|count IH]; intros nr0 outs H.
  - simpl in H. injection H as <-. split; [reflexivity | intros k Hk; lia].
  - cbn [Ttcr3d.save_reflected] in H.
    destruct (Ttcr3d.stitch sxyz_eqb nrcv rfl_r_data rfl2_r_data nr0 ns)
      as [r_tmp|] eqn:Es; [|discriminate].
    destruct (Ttcr3d.save_reflected sxyz_eqb prefix nrcv rfl_r_data rfl2_r_data ns
                                    count (S nr0)) as [rest|] eqn:Er; [|discriminate].
    injection H as <-. destruct (IH (S nr0) rest Er) as (Hn & Hk).
    split.
    + cbn [map seq Spec.output_name]. now rewrite Hn.
    + intros [|k] Hlt.
      * exists r_tmp. rewrite Nat.add_0_r. split; [exact Es | reflexivity].
      * destruct (Hk k) as (r & Hr & Ho); [lia|].
        exists r. rewrite Nat.add_succ_r. split; [exact Hr | exact Ho].
Qed.

End SaveReflected.

(** X19: whenever the loop over the reflectors ends, it has called
    [saveRayPaths] once per reflector, in order, with the stitched paths
    of that reflector and the name [prefix_rpN.vtp], [N] counted from 1;
    the names are pairwise distinct, so no file overwrites another. *)
Theorem save_reflected_one_file_per_reflector :
  forall (T : Type) (sxyz_eqb : Sxyz.sxyz T -> Sxyz.sxyz T -> bool)
         (prefix : string) (nrcv : nat)
         (rfl_r_data rfl2_r_data : list (list (list (Ttcr3d.path T))))
         (ns nrefl : nat) (outs : list (Ttcr3d.output T)),
    Ttcr3d.save_reflected sxyz_eqb prefix nrcv rfl_r_data rfl2_r_data ns nrefl 0 =
    Some outs ->
    length outs = nrefl /\
    NoDup (map Spec.output_name outs) /\
    forall nr, (nr < nrefl)%nat ->
      exists r_tmp,
        Ttcr3d.stitch sxyz_eqb nrcv rfl_r_data rfl2_r_data nr ns = Some r_tmp /\
        nth_error outs nr =
        Some (Ttcr3d.SaveRayPaths
                (prefix ++ "_rp" ++ Ttcr3d.to_string (nr + 1) ++ ".vtp")%string r_tmp).
Proof.
  intros T sxyz_eqb prefix nrcv rfl_r_data rfl2_r_data ns nrefl outs H.
  destruct (save_reflected_outputs sxyz_eqb prefix nrcv rfl_r_data rfl2_r_data ns
              nrefl 0%nat outs H) as (Hn & Hk).
  split; [|split].
  - rewrite <- (length_map Spec.output_name), Hn, length_map, length_seq. reflexivity.
  - rewrite Hn. apply Injective_map_NoDup; [|apply seq_NoDup].
    intros a b E. now apply (rp_filename_injective prefix).
  - intros nr Hnr. exact (Hk nr Hnr).
Qed.

Lemma save_reflected_one_file_per_reflector_witness :
  exists outs,
    Ttcr3d.save_reflected Examples.pt_eqb "out" 2
      [[Examples.rfl_paths]; [Examples.rfl_paths]]
      [[Examples.rcv_paths]; [Examples.rcv_paths_unmatched]] 0 2 0 = Some outs /\
    length outs = 2%nat /\
    map Spec.output_name outs = ["out_rp1.vtp"%string; "out_rp2.vtp"%string] /\
    NoDup (map Spec.output_name outs).
Proof.
  eexists. split; [reflexivity|].
  split; [reflexivity|]. split; [reflexivity|].
  apply (proj1 (proj2 (save_reflected_one_file_per_reflector
                         Q Examples.pt_eqb "out" 2
                         [[Examples.rfl_paths]; [Examples.rfl_paths]]
                         [[Examples.rcv_paths]; [Examples.rcv_paths_unmatched]]
                         0 2 _ eq_refl))).
Defined.

(** ** The saving stage *)

Section SavingProps.
Context {T : Type}.
Variable sxyz_eqb : Sxyz.sxyz T -> Sxyz.sxyz T -> bool.
Variables (saveRaypaths : bool) (basename : string) (nrcv nrefl : nat).
Variable r_data : list (list (Ttcr3d.path T)).
Variables rfl_r_data rfl2_r_data : list (list (list (Ttcr3d.path T))).


(** The loop over two lists of sources put end to end. *)
Lemma save_sources_app (a b : list string) :
  forall ns,
    Body.save_sources sxyz_eqb saveRaypaths basename nrcv nrefl
                      r_data rfl_r_data rfl2_r_data (a ++ b) ns =
    match Body.save_sources sxyz_eqb saveRaypaths basename nrcv nrefl
                            r_data rfl_r_data rfl2_r_data a ns with
    | None => None
    | Some s =>
        match Body.how s with
        | Body.Normal =>
            match Body.save_sources sxyz_eqb saveRaypaths basename nrcv nrefl
                                    r_data rfl_r_data rfl2_r_data b (ns + length a) with
            | None => None
            | Some s' => Some (Body.mk_saved (Body.files s ++ Body.files s') (Body.how s'))
            end
        | _ => Some s
        end
    end.
Proof.
  induction a as [|f a IH]; intros ns.
  - cbn [app Body.save_sources Body.how Body.files length]. rewrite Nat.add_0_r.
    destruct (Body.save_sources sxyz_eqb saveRaypaths basename nrcv nrefl r_data rfl_r_data rfl2_r_data b ns) as [[fs h]|]; reflexivity.
  - cbn [app Body.save_sources length].
    destruct (Body.srcname f) as [n|]; [|reflexivity].
    destruct (Body.save_source sxyz_eqb saveRaypaths nrcv nrefl r_data rfl_r_data rfl2_r_data _ ns) as [here|]; [|reflexivity].
    rewrite IH. replace (ns + S (length a))%nat with (S ns + length a)%nat by lia.
    destruct (Body.save_sources sxyz_eqb saveRaypaths basename nrcv nrefl r_data rfl_r_data rfl2_r_data a (S ns)) as [[fs h]|]; [|reflexivity].
    cbn [Body.how Body.files].
    destruct h; try reflexivity.
    destruct (Body.save_sources sxyz_eqb saveRaypaths basename nrcv nrefl r_data rfl_r_data rfl2_r_data b (S ns + length a)) as [[fs' h']|];
      [|reflexivity].
    cbn [Body.how Body.files]. now rewrite app_assoc.
Qed.


(** X20: with several source files, when the loop over the sources has
    saved the files of the first ones and the name of the next one
    holds no dot after its last slash, the run ends there with
    [std::out_of_range]: the files of the earlier sources stay written,
    no file of the later sources is and neither is the global ray-path
    file, whether it could be opened or not. *)
Theorem save_aborts_at_name_without_dot
        (good : list string) (bad : string) (rest : list string)
        (fs : list (Body.file T)) (can_open : bool) :
  Body.save_sources sxyz_eqb saveRaypaths basename nrcv nrefl
                    r_data rfl_r_data rfl2_r_data good 0 =
    Some (Body.mk_saved fs Body.Normal) ->
  Body.srcname bad = None ->
  length (good ++ bad :: rest) <> 1%nat ->
  Body.save_all sxyz_eqb saveRaypaths basename nrcv nrefl
                r_data rfl_r_data rfl2_r_data (good ++ bad :: rest) can_open =
    Some (Body.mk_saved fs Body.OutOfRange).
Proof.
  intros Hg Hb Hl. unfold Body.save_all.
  apply Nat.eqb_neq in Hl. rewrite Hl.
  rewrite save_sources_app, Hg. cbn [Body.how Body.files Body.save_sources].
  rewrite Hb. cbn [Body.how Body.files]. now rewrite app_nil_r.
Qed.

End SavingProps.

Lemma save_aborts_at_name_without_dot_witness :
  exists fs,
    Body.save_sources Examples.pt_eqb true "out" 2 1 Examples.direct_paths
      [[Examples.rfl_paths; Examples.rfl_paths]]
      [[Examples.rcv_paths; Examples.rcv_paths]] ["a/s1.dat"%string] 0 =
      Some (Body.mk_saved fs Body.Normal) /\
    Body.srcname "s2" = None /\
    Body.save_all Examples.pt_eqb true "out" 2 1 Examples.direct_paths
      [[Examples.rfl_paths; Examples.rfl_paths]]
      [[Examples.rcv_paths; Examples.rcv_paths]]
      ["a/s1.dat"%string; "s2"%string; "s3.dat"%string] true =
      Some (Body.mk_saved fs Body.OutOfRange).
Proof.
  eexists. split; [reflexivity|]. split; [reflexivity|].
  apply (save_aborts_at_name_without_dot Examples.pt_eqb true "out" 2 1
           Examples.direct_paths
           [[Examples.rfl_paths; Examples.rfl_paths]]
           [[Examples.rcv_paths; Examples.rcv_paths]]
           ["a/s1.dat"%string] "s2" ["s3.dat"%string] _ true);
    [reflexivity | reflexivity | discriminate].
Defined.

